(** * Jokusoramame: the event cog ([joku/cogs/events.py])

    A shallow embedding of the [Events] cog and a verification of the
    statements its specification makes about it.

    The cog is asynchronous Python that reaches every collaborator through
    [self.bot].  The embedding is a state-and-exception monad over a
    [World] (the in-memory event counter, the rows of the persistent
    [events] table and a journal of every external call issued, in order)
    and a read-only [Bot] that fixes how the collaborators answer.
    Handlers are written statement by statement after the source. *)

From Stdlib Require Import ZArith String Ascii List.
From stdpp Require Import base option strings countable gmap sorting list.
Import ListNotations.

Set Warnings "-register-all,-clear-no-such-hyp".

Open Scope string_scope.
Open Scope list_scope.

(** ** Python values *)

(** The values a decoded gateway frame is built from (the JSON fragment of
    Python: [None], booleans, integers, strings, lists and string-keyed
    dicts; the gateway sends no fractional numbers in the fields read
    here).  A dict keeps its items in insertion order. *)
Inductive pyval :=
  | PNone
  | PBool (b : bool)
  | PInt (n : Z)
  | PStr (s : string)
  | PList (l : list pyval)
  | PDict (d : list (string * pyval)).

Abbreviation pydict := (list (string * pyval)).

(** Python truthiness, as tested by [if not event]. *)
Definition truthy (v : pyval) : bool :=
  match v with
  | PNone => false
  | PBool b => b
  | PInt n => negb (n =? 0)%Z
  | PStr s => negb (String.eqb s EmptyString)
  | PList l => match l with [] => false | _ => true end
  | PDict d => match d with [] => false | _ => true end
  end.

(** [d.get(key)] and [d.get(key, None)] on a dict: the value stored under
    [key], or [None]. *)
Fixpoint dict_get (key : string) (d : pydict) : pyval :=
  match d with
  | [] => PNone
  | (k, v) :: d' => if String.eqb k key then v else dict_get key d'
  end.

(** [d[key]] on a dict: the value stored under [key], if any. *)
Fixpoint dict_item (key : string) (d : pydict) : option pyval :=
  match d with
  | [] => None
  | (k, v) :: d' => if String.eqb k key then Some v else dict_item key d'
  end.

(** [v == "literal"] for a string literal. *)
Definition eq_str (v : pyval) (lit : string) : bool :=
  match v with
  | PStr s => String.eqb s lit
  | _ => false
  end.

(** Structural equality of values is decidable; the store compares the
    group keys of [group("t")] with it. *)
Definition pyval_eq_dec : ∀ a b : pyval, {a = b} + {a ≠ b}.
Proof.
  fix go 1. intros a b.
  decide equality.
  - apply Bool.bool_dec.
  - apply Z.eq_dec.
  - apply String.string_dec.
  - apply List.list_eq_dec, go.
  - apply List.list_eq_dec. intros p q. decide equality. apply String.string_dec.
Defined.

#[global] Instance pyval_eq_decision : EqDecision pyval := pyval_eq_dec.

(** A key of a Python dict: the hashable values.  [True] and [1] (and
    [False] and [0]) are the same key. *)
Inductive hkey :=
  | HNone
  | HInt (n : Z)
  | HStr (s : string).

Definition hash_key (v : pyval) : option hkey :=
  match v with
  | PNone => Some HNone
  | PBool b => Some (HInt (if b then 1 else 0))
  | PInt n => Some (HInt n)
  | PStr s => Some (HStr s)
  | PList _ | PDict _ => None
  end.

#[global] Instance hkey_eq_dec : EqDecision hkey.
Proof. solve_decision. Defined.

#[global] Instance hkey_countable : Countable hkey.
Proof.
  refine (inj_countable'
    (λ k, match k with
          | HNone => inl ()
          | HInt n => inr (inl n)
          | HStr s => inr (inr s)
          end)
    (λ x, match x with
          | inl _ => HNone
          | inr (inl n) => HInt n
          | inr (inr s) => HStr s
          end) _).
  by intros [].
Defined.

(** ** Exceptions and the handler monad *)

Inductive exn :=
  | KeyError (key : string)
  | AttributeError
  | TypeError
  | ValueError
  | IndexError
  | StoreError
  | SendError.

Inductive result (A : Type) :=
  | Ok (a : A)
  | Raise (e : exn).
Arguments Ok {A} a.
Arguments Raise {A} e.

(** A row of the [events] table: a flat dict, its kind under ["t"]. *)
Abbreviation record := (list (string * pyval)).

(** The view [str.format] has of a Python object: its [str()] and the
    attributes listed for it.  The list need not be complete: every Python
    object has more attributes than any list names, and what a template
    gets from an attribute that is not listed is left to the interpreter
    (see [walk]). *)
Inductive pyobj :=
  | PyObj (str : string) (attrs : list (string * pyobj)).

Definition obj_str (o : pyobj) : string :=
  match o with PyObj s _ => s end.

Definition obj_attrs (o : pyobj) : list (string * pyobj) :=
  match o with PyObj _ a => a end.

Fixpoint getattr (name : string) (attrs : list (string * pyobj)) : option pyobj :=
  match attrs with
  | [] => None
  | (k, v) :: attrs' => if String.eqb k name then Some v else getattr name attrs'
  end.

(** [discord.Server], [discord.Channel], [discord.Member] and
    [discord.Message], reduced to what the handlers read (ids are strings
    in this version of the library), their [str()], and whatever other
    attributes a template may reach. *)
Record Server := {
  server_id : string;
  server_name : string;
  server_str : string;
  server_other : list (string * pyobj)
}.

Record Channel := {
  channel_id : string;
  channel_name : string;
  channel_str : string;
  channel_other : list (string * pyobj)
}.

Record Member := {
  member_id : string;
  member_name : string;
  member_server : Server;
  member_str : string;
  member_other : list (string * pyobj)
}.

(** A message; [message.server] is [None] for a private message. *)
Record Message := {
  message_author : Member;
  message_server : option Server;
  message_content : string
}.

(** A [str]: its [str()] is itself.  None of its attributes is listed. *)
Definition str_obj (s : string) : pyobj := PyObj s [].

Definition server_obj (s : Server) : pyobj :=
  PyObj (server_str s)
    ([("id", str_obj (server_id s)); ("name", str_obj (server_name s))]
       ++ server_other s).

Definition channel_obj (c : Channel) : pyobj :=
  PyObj (channel_str c)
    ([("id", str_obj (channel_id c)); ("name", str_obj (channel_name c))]
       ++ channel_other c).

Definition member_obj (m : Member) : pyobj :=
  PyObj (member_str m)
    ([("id", str_obj (member_id m)); ("name", str_obj (member_name m));
      ("server", server_obj (member_server m))]
       ++ member_other m).

(** Every call a handler issues to a collaborator, as the journal keeps it. *)
Inductive call :=
  | CWarn (event : pyval) (data : pydict)
  | CLog (row : record)
  | CLogMessage (message : Message)
  | CResolve (server : Server) (category default : string)
  | CSend (channel : Channel) (text : string).

(** The mutable state the handlers act on.  [events] is
    [bot.manager.events], a [collections.Counter]; [table] holds the rows
    the store has committed to the [events] table; [journal] lists the
    calls issued to the logger, the store, the resolver and the
    channel-send primitive, whatever their outcome. *)
Record World := mkWorld {
  events : gmap hkey nat;
  table : list record;
  journal : list call
}.

Definition M (A : Type) : Type := World → result A * World.

#[global] Instance M_ret : MRet M := λ A a w, (Ok a, w).

#[global] Instance M_bind : MBind M := λ A B f m w,
  match m w with
  | (Ok a, w') => f a w'
  | (Raise e, w') => (Raise e, w')
  end.

Definition raise {A} (e : exn) : M A := λ w, (Raise e, w).

Definition lift {A} (r : result A) : M A := λ w, (r, w).

Definition issue (c : call) : M unit :=
  λ w, (Ok (), mkWorld (events w) (table w) (journal w ++ [c])).

Definition commit (row : record) : M unit :=
  λ w, (Ok (), mkWorld (events w) (table w ++ [row]) (journal w)).


(** ** The collaborators behind [self.bot] *)

(** How the world outside the cog answers.  None of these is code of the
    cog: each field fixes the outcome of one external primitive, so that a
    statement quantified over every [Bot] holds however the store, the
    configuration, the chat platform and the interpreter's [format]
    behave. *)
Record Bot := {
  (** does [rdblog.log(row)] commit the row, or fail? *)
  rdblog_accepts : record → bool;
  (** the row [rdblog.log_message(message)] commits, unless it fails *)
  log_message_row : Message → option record;
  (** the answer of [rethinkdb.get_event_message(server, category, default)] *)
  get_event_message : Server → string → string → result (option (Channel * string));
  (** does [send_message(channel, text)] deliver, or fail? *)
  send_accepts : Channel → string → bool;
  (** [connection.sequence] *)
  sequence : pyval;
  (** what [str.format] does with a replacement field that indexes
      ([\[...\]]), converts ([!r]), carries a format spec ([:...]) or
      reaches for an attribute that is not listed for the object, given
      the keyword arguments, the object reached so far, the rest of the
      field name, the conversion and the spec *)
  format_other :
    list (string * pyobj) → pyobj → string → option ascii → string → result string;
  (** [Py_UNICODE_TODECIMAL] outside ASCII: the value the interpreter's
      Unicode database gives a character, written as its UTF-8 bytes, if
      it counts as a decimal digit there *)
  unicode_decimal : string → option Z
}.

(** Modelled from the spec: [Store.append(record)], which "fails with
    StoreError on durability failure"; the failure "is reported to the
    caller".  The call is journalled, then the row is committed or the
    error raised.  (The ingestion timestamp the logger adds is left out.) *)
Definition rdblog_log (bot : Bot) (row : record) : M unit :=
  issue (CLog row);;
  if rdblog_accepts bot row then commit row else raise StoreError.

(** Modelled from the spec: the same append, for [rdblog.log_message]. *)
Definition rdblog_log_message (bot : Bot) (message : Message) : M unit :=
  issue (CLogMessage message);;
  match log_message_row bot message with
  | Some row => commit row
  | None => raise StoreError
  end.

(** Modelled from the spec: [ConfigStore.getTemplate], the resolver, which
    returns none when no subscription exists. *)
Definition rethinkdb_get_event_message (bot : Bot)
    (server : Server) (category default : string) : M (option (Channel * string)) :=
  issue (CResolve server category default);;
  lift (get_event_message bot server category default).

(** Modelled from the spec: [Channel.send(channelId, text)], which "fails
    with SendError". *)
Definition send_message (bot : Bot) (channel : Channel) (text : string) : M unit :=
  issue (CSend channel text);;
  if send_accepts bot channel text then mret () else raise SendError.

(** ** The frequency counter *)

(** [counter[key]] on a [collections.Counter]: a missing key counts 0. *)
Definition counter_get (c : gmap hkey nat) (k : hkey) : nat :=
  default 0 (c !! k).

(** [counter[key] += 1] *)
Definition increment (k : hkey) (c : gmap hkey nat) : gmap hkey nat :=
  <[k := S (counter_get c k)]> c.

(** [self.bot.manager.events[event] += 1]; an unhashable key is a
    [TypeError]. *)
Definition count_event (event : pyval) : M unit :=
  match hash_key event with
  | Some k => λ w, (Ok (), mkWorld (increment k (events w)) (table w) (journal w))
  | None => raise TypeError
  end.

(** ** Gateway frames *)

Definition unknown_events : gmap Z string :=
  <[11%Z := "HEARTBEAT_ACK"]>
    (<[10%Z := "READY"]>
      (<[9%Z := "INVALIDATE_SESSION"]>
        (<[7%Z := "RECONNECT"]> ∅))).

(** [unknown_events.get(key)] *)
Definition unknown_events_get (key : pyval) : result pyval :=
  match hash_key key with
  | Some (HInt n) =>
      match unknown_events !! n with
      | Some name => Ok (PStr name)
      | None => Ok PNone
      end
  | Some _ => Ok PNone
  | None => Raise TypeError
  end.

(** [data["d"]] *)
Definition subscript (data : pydict) (key : string) : result pyval :=
  match dict_item key data with
  | Some v => Ok v
  | None => Raise (KeyError key)
  end.

(** [v.get(key, None)]: only a dict has [get]. *)
Definition method_get (v : pyval) (key : string) : result pyval :=
  match v with
  | PDict d => Ok (dict_get key d)
  | _ => Raise AttributeError
  end.

(** Lines 83-87 of [on_socket_response]: the kind of a frame. *)
Definition classify (data : pydict) : M pyval :=
  let event := dict_get "t" data in
  if negb (truthy event) then
    event ← lift (unknown_events_get (dict_get "op" data));
    (if negb (truthy event) then issue (CWarn event data) else mret ());;
    mret event
  else mret event.

Definition on_socket_response (bot : Bot) (data : pydict) : M unit :=
  event ← classify data;
  (if eq_str event "PRESENCE_UPDATE" then
     d ← lift (subscript data "d");
     server_id ← lift (method_get d "guild_id");
     user ← lift (method_get d "user");
     member_id ← lift (method_get user "id");
     game ← lift (method_get d "game");
     rdblog_log bot
       [("t", PStr "PRESENCE_UPDATE"); ("server_id", server_id);
        ("member_id", member_id); ("game", game)]
   else if eq_str event "HEATBEAT_ACK" then
     rdblog_log bot [("t", PStr "HEARTBEAT_ACK"); ("seq", sequence bot)]
   else mret ());;
  count_event event.

(** ** [str.format] *)

(** The handlers call [event_msg.format] with three keyword arguments.
    The model follows the interpreter: the template is scanned from left
    to right into literal text and replacement fields, each field is
    looked up and rendered as it is met, and the first error ends the
    call.  A string holds the UTF-8 encoding of a Python [str].  Every
    character of the markup is ASCII, so the scanner reads bytes; where
    [format] takes one whole character (the conversion, and the digits of
    a numeric field name) the continuation bytes go with the byte that
    starts it. *)

(** A byte that is an ASCII character. *)
Definition is_ascii (c : ascii) : bool := (nat_of_ascii c <? 128)%nat.

(** A byte that continues a UTF-8 character. *)
Definition is_continuation (c : ascii) : bool :=
  (128 <=? nat_of_ascii c)%nat && (nat_of_ascii c <? 192)%nat.

(** The pieces [str.format] splits a template into, in order: literal
    text, replacement fields, and the point where the markup is malformed
    (a [ValueError] once rendering gets there). *)
Inductive piece :=
  | Literal (text : string)
  | Field (name : string) (conversion : option ascii) (spec : string)
  | Malformed.

(** Where the scanner is: in literal text, just after a brace that may
    be doubled, in a field name (possibly inside an index), after the [!]
    of a conversion, after the conversion character (kept as its first
    byte), or in a format spec with [depth] nested braces still open. *)
Inductive scanner :=
  | InText (acc : string)
  | AfterOpen (acc : string)
  | AfterClose (acc : string)
  | InName (acc : string)
  | InIndex (acc : string)
  | AfterBang (name : string)
  | AfterConversion (name : string) (conversion : ascii)
  | InSpec (name : string) (conversion : option ascii) (depth : nat) (acc : string).

Definition snoc (s : string) (c : ascii) : string := s +:+ String c EmptyString.

(** One character of a field name. *)
Definition scan_name (acc : string) (c : ascii) : list piece * option scanner :=
  if Ascii.eqb c "{" then ([Malformed], None)
  else if Ascii.eqb c "[" then ([], Some (InIndex (snoc acc c)))
  else if Ascii.eqb c "}" then ([Field acc None EmptyString], Some (InText EmptyString))
  else if Ascii.eqb c ":" then ([], Some (InSpec acc None 0 EmptyString))
  else if Ascii.eqb c "!" then ([], Some (AfterBang acc))
  else ([], Some (InName (snoc acc c))).

(** One character of the template: the pieces completed by it and the
    state to go on from, or [None] once the markup is malformed. *)
Definition scan (st : scanner) (c : ascii) : list piece * option scanner :=
  match st with
  | InText acc =>
      if Ascii.eqb c "{" then ([], Some (AfterOpen acc))
      else if Ascii.eqb c "}" then ([], Some (AfterClose acc))
      else ([], Some (InText (snoc acc c)))
  | AfterOpen acc =>
      if Ascii.eqb c "{" then ([], Some (InText (snoc acc c)))
      else let '(out, st') := scan_name EmptyString c in (Literal acc :: out, st')
  | AfterClose acc =>
      if Ascii.eqb c "}" then ([], Some (InText (snoc acc c)))
      else ([Malformed], None)
  | InName acc => scan_name acc c
  | InIndex acc =>
      if Ascii.eqb c "]" then ([], Some (InName (snoc acc c)))
      else ([], Some (InIndex (snoc acc c)))
  | AfterBang name => ([], Some (AfterConversion name c))
  | AfterConversion name conversion =>
      if negb (is_ascii conversion) && is_continuation c then
        ([], Some (AfterConversion name conversion))
      else if Ascii.eqb c "}" then
        ([Field name (Some conversion) EmptyString], Some (InText EmptyString))
      else if Ascii.eqb c ":" then ([], Some (InSpec name (Some conversion) 0 EmptyString))
      else ([Malformed], None)
  | InSpec name conversion depth acc =>
      if Ascii.eqb c "{" then ([], Some (InSpec name conversion (S depth) (snoc acc c)))
      else if Ascii.eqb c "}" then
        match depth with
        | O => ([Field name conversion acc], Some (InText EmptyString))
        | S depth' => ([], Some (InSpec name conversion depth' (snoc acc c)))
        end
      else ([], Some (InSpec name conversion depth (snoc acc c)))
  end.

(** The end of the template: trailing literal text, or an unfinished
    brace or field. *)
Definition scan_end (st : scanner) : list piece :=
  match st with
  | InText acc => [Literal acc]
  | _ => [Malformed]
  end.

Fixpoint markup (st : scanner) (template : string) : list piece :=
  match template with
  | EmptyString => scan_end st
  | String c template' =>
      let '(out, next) := scan st c in
      out ++ match next with
             | Some st' => markup st' template'
             | None => []
             end
  end.

(** A field name up to its first [.] or [\[], and the rest. *)
Fixpoint field_name_split (name : string) : string * string :=
  match name with
  | EmptyString => (EmptyString, EmptyString)
  | String c name' =>
      if Ascii.eqb c "." || Ascii.eqb c "[" then (EmptyString, name)
      else let '(first, rest) := field_name_split name' in (String c first, rest)
  end.

Definition is_digit (c : ascii) : bool :=
  (48 <=? nat_of_ascii c)%nat && (nat_of_ascii c <=? 57)%nat.

(** Does a string go on with a continuation byte? *)
Definition continues (s : string) : bool :=
  match s with
  | String c _ => is_continuation c
  | EmptyString => false
  end.

(** The characters of a string: each ASCII byte, and each other byte
    with the continuation bytes that follow it. *)
Fixpoint characters (s : string) : list string :=
  match s with
  | EmptyString => []
  | String c s' =>
      match characters s' with
      | ch :: chs =>
          if negb (is_ascii c) && continues s' then String c ch :: chs
          else String c EmptyString :: ch :: chs
      | [] => [String c EmptyString]
      end
  end.

(** [Py_UNICODE_TODECIMAL]: the value of a character as a decimal digit.
    The ASCII digits are fixed; for any other character the interpreter's
    Unicode database decides. *)
Definition to_decimal (bot : Bot) (ch : string) : option Z :=
  match ch with
  | String c EmptyString =>
      if is_ascii c then
        if is_digit c then Some (Z.of_nat (nat_of_ascii c - 48)) else None
      else unicode_decimal bot ch
  | _ => unicode_decimal bot ch
  end.

(** [PY_SSIZE_T_MAX] on a 64-bit build. *)
Definition ssize_max : Z := 2 ^ 63 - 1.

(** What [get_integer] makes of a name: no number, a number that does
    not fit, or an index. *)
Inductive integer :=
  | NotInteger
  | TooManyDigits
  | Index (n : Z).

(** The loop of [get_integer]: it stops at the first character that is
    no digit, and reports too many digits as soon as the next digit would
    overflow, whatever comes after. *)
Fixpoint get_integer_from (bot : Bot) (accumulator : Z) (chs : list string) : integer :=
  match chs with
  | [] => Index accumulator
  | ch :: chs' =>
      match to_decimal bot ch with
      | None => NotInteger
      | Some digitval =>
          if (Z.quot (ssize_max - digitval) 10 <? accumulator)%Z then TooManyDigits
          else get_integer_from bot (accumulator * 10 + digitval) chs'
      end
  end.

Definition get_integer (bot : Bot) (s : string) : integer :=
  match characters s with
  | [] => NotInteger
  | chs => get_integer_from bot 0 chs
  end.

(** The object a field starts from.  [format] is only ever called with
    keyword arguments here, so an empty or numeric name, which selects a
    positional argument, finds none. *)
Definition get_field_object (bot : Bot) (kwargs : list (string * pyobj))
    (first : string) : result pyobj :=
  match get_integer bot first with
  | TooManyDigits => Raise ValueError
  | Index _ => Raise IndexError
  | NotInteger =>
      if String.eqb first EmptyString then Raise IndexError
      else match getattr first kwargs with
           | Some o => Ok o
           | None => Raise (KeyError first)
           end
  end.

(** [format(obj, spec)] after the conversion: with an empty spec and no
    conversion, or [!s], it is [str(obj)] (no class involved overrides
    [__format__]). *)
Definition render (bot : Bot) (kwargs : list (string * pyobj)) (obj : pyobj)
    (conversion : option ascii) (spec : string) : result string :=
  if String.eqb spec EmptyString
     && match conversion with
        | None => true
        | Some c => Ascii.eqb c "s"
        end
  then Ok (obj_str obj)
  else format_other bot kwargs obj EmptyString conversion spec.

(** [getattr(obj, name)] for the attribute name read so far, if any, and
    then [next] on the object reached.  An empty name is an error before
    anything is looked up.  For a name that is not among the attributes
    listed for [obj] the interpreter decides what the field comes to, from
    the object reached, the field name from this attribute on, the
    conversion and the spec. *)
Definition finish_attribute (bot : Bot) (kwargs : list (string * pyobj))
    (obj : pyobj) (attribute : option string) (rest : string)
    (conversion : option ascii) (spec : string)
    (next : pyobj → result string) : result string :=
  match attribute with
  | None => next obj
  | Some name =>
      if String.eqb name EmptyString then Raise ValueError
      else match getattr name (obj_attrs obj) with
           | Some obj' => next obj'
           | None =>
               format_other bot kwargs obj (String "." (name +:+ rest)) conversion spec
           end
  end.

(** Follows the [.attribute] accesses of the rest of a field name, then
    renders the object reached. *)
Fixpoint walk (bot : Bot) (kwargs : list (string * pyobj)) (obj : pyobj)
    (attribute : option string) (rest : string)
    (conversion : option ascii) (spec : string) : result string :=
  match rest with
  | EmptyString =>
      finish_attribute bot kwargs obj attribute rest conversion spec
        (λ obj', render bot kwargs obj' conversion spec)
  | String c rest' =>
      if Ascii.eqb c "." then
        finish_attribute bot kwargs obj attribute rest conversion spec
          (λ obj', walk bot kwargs obj' (Some EmptyString) rest' conversion spec)
      else if Ascii.eqb c "[" then
        finish_attribute bot kwargs obj attribute rest conversion spec
          (λ obj', format_other bot kwargs obj' rest conversion spec)
      else
        match attribute with
        | Some name => walk bot kwargs obj (Some (snoc name c)) rest' conversion spec
        | None => Raise ValueError
        end
  end.

Definition format_field (bot : Bot) (kwargs : list (string * pyobj))
    (name : string) (conversion : option ascii) (spec : string) : result string :=
  let '(first, rest) := field_name_split name in
  match get_field_object bot kwargs first with
  | Ok obj => walk bot kwargs obj None rest conversion spec
  | Raise e => Raise e
  end.

(** Renders the pieces in order; the first error ends the rendering. *)
Fixpoint build_string (bot : Bot) (kwargs : list (string * pyobj))
    (pieces : list piece) : result string :=
  match pieces with
  | [] => Ok EmptyString
  | Literal text :: pieces' =>
      match build_string bot kwargs pieces' with
      | Ok s => Ok (text +:+ s)
      | Raise e => Raise e
      end
  | Field name conversion spec :: pieces' =>
      match format_field bot kwargs name conversion spec with
      | Ok text =>
          match build_string bot kwargs pieces' with
          | Ok s => Ok (text +:+ s)
          | Raise e => Raise e
          end
      | Raise e => Raise e
      end
  | Malformed :: _ => Raise ValueError
  end.

(** [template.format] called with keyword arguments only *)
Definition str_format (bot : Bot) (template : string)
    (kwargs : list (string * pyobj)) : result string :=
  build_string bot kwargs (markup (InText EmptyString) template).

(** ** Message and lifecycle handlers *)

Definition on_message (bot : Bot) (message : Message) : M unit :=
  rdblog_log_message bot message.

(** [user] is a [discord.User]; only its id is read.  The [when]
    argument is not used. *)
Definition on_typing (bot : Bot) (channel : Channel) (user : Member) : M unit :=
  let obb :=
    [("t", PStr "TYPING_START"); ("member_id", PStr (member_id user));
     ("channel_id", PStr (channel_id channel))] in
  rdblog_log bot obb.

(** [message.server.id]: a private message has no server. *)
Definition message_server_id (message : Message) : result string :=
  match message_server message with
  | Some server => Ok (server_id server)
  | None => Raise AttributeError
  end.

Definition on_message_delete (bot : Bot) (message : Message) : M unit :=
  server_id ← lift (message_server_id message);
  let obb :=
    [("t", PStr "MESSAGE_DELETE");
     ("member_id", PStr (member_id (message_author message)));
     ("member_name", PStr (member_name (message_author message)));
     ("server_id", PStr server_id);
     ("channel_id", PStr server_id);
     ("content", PStr (message_content message))] in
  rdblog_log bot obb.

Definition on_message_edit (bot : Bot) (old message : Message) : M unit :=
  server_id ← lift (message_server_id message);
  let obb :=
    [("t", PStr "MESSAGE_UPDATE");
     ("member_id", PStr (member_id (message_author message)));
     ("member_name", PStr (member_name (message_author message)));
     ("server_id", PStr server_id);
     ("channel_id", PStr server_id);
     ("old_content", PStr (message_content old));
     ("content", PStr (message_content message))] in
  rdblog_log bot obb.

Definition on_member_ban (bot : Bot) (member : Member) : M unit :=
  let obb :=
    [("t", PStr "GUILD_BAN_ADD"); ("member_id", PStr (member_id member));
     ("member_name", PStr (member_name member));
     ("server_id", PStr (server_id (member_server member)))] in
  rdblog_log bot obb;;
  i ← rethinkdb_get_event_message bot (member_server member) "bans"
        "`{member.name}` got **bent**";
  match i with
  | None => mret ()
  | Some (channel, event_msg) =>
      msg ← lift (str_format bot event_msg
                    [("member", member_obj member);
                     ("server", server_obj (member_server member));
                     ("channel", channel_obj channel)]);
      send_message bot channel msg
  end.

Definition on_member_unban (bot : Bot) (server : Server) (member : Member) : M unit :=
  let obb :=
    [("t", PStr "GUILD_BAN_REMOVE"); ("member_id", PStr (member_id member));
     ("member_name", PStr (member_name member));
     ("server_id", PStr (server_id server))] in
  rdblog_log bot obb;;
  i ← rethinkdb_get_event_message bot server "unbans"
        "`{member.name}` got **unbent**";
  match i with
  | None => mret ()
  | Some (channel, event_msg) =>
      msg ← lift (str_format bot event_msg
                    [("member", member_obj member);
                     ("server", server_obj server);
                     ("channel", channel_obj channel)]);
      send_message bot channel msg
  end.

Definition on_member_join (bot : Bot) (member : Member) : M unit :=
  let obb :=
    [("t", PStr "GUILD_MEMBER_ADD"); ("member_id", PStr (member_id member));
     ("member_name", PStr (member_name member));
     ("server_id", PStr (server_id (member_server member)))] in
  rdblog_log bot obb;;
  i ← rethinkdb_get_event_message bot (member_server member) "joins"
        "Welcome {member.name}!";
  match i with
  | None => mret ()
  | Some (channel, event_msg) =>
      msg ← lift (str_format bot event_msg
                    [("member", member_obj member);
                     ("server", server_obj (member_server member));
                     ("channel", channel_obj channel)]);
      send_message bot channel msg
  end.

Definition on_member_remove (bot : Bot) (member : Member) : M unit :=
  let obb :=
    [("t", PStr "GUILD_MEMBER_REMOVE"); ("member_id", PStr (member_id member));
     ("member_name", PStr (member_name member));
     ("server_id", PStr (server_id (member_server member)))] in
  rdblog_log bot obb;;
  i ← rethinkdb_get_event_message bot (member_server member) "leaves"
        "Bye {member.name}!";
  match i with
  | None => mret ()
  | Some (channel, event_msg) =>
      msg ← lift (str_format bot event_msg
                    [("member", member_obj member);
                     ("server", server_obj (member_server member));
                     ("channel", channel_obj channel)]);
      send_message bot channel msg
  end.

(** ** The [all] command: the frequency table of the whole log *)

(** One more row of kind [key]: a kind seen before has its count
    raised, a new kind is added with count 1. *)
Fixpoint tally (key : pyval) (groups : list (pyval * nat)) : list (pyval * nat) :=
  match groups with
  | [] => [(key, 1)]
  | (k, n) :: groups' =>
      if decide (k = key) then (k, S n) :: groups'
      else (k, n) :: tally key groups'
  end.

(** Modelled from the spec: [Store.groupCount(logName, groupKeyField)],
    "group all log records by EventKind, count per group, produce the
    mapping"; here the query [r.table("events").group("t").count()].  A
    row without the field is grouped under [None].  The entries are kept
    in the order in which their kinds first occur; that order only decides
    how entries of equal count are presented. *)
Definition group_count (field : string) (rows : list record) : list (pyval * nat) :=
  foldl (λ groups row, tally (dict_get field row) groups) [] rows.

(** [sorted(l, key=lambda x: x\[1\])]: ascending by count and stable
    (an entry is put before the entries of equal count that followed
    it). *)
Fixpoint insert_by_count (x : pyval * nat) (l : list (pyval * nat)) : list (pyval * nat) :=
  match l with
  | [] => [x]
  | y :: l' =>
      if (x.2 <=? y.2)%nat then x :: y :: l' else y :: insert_by_count x l'
  end.

Fixpoint sorted_by_count (l : list (pyval * nat)) : list (pyval * nat) :=
  match l with
  | [] => []
  | x :: l' => insert_by_count x (sorted_by_count l')
  end.

(** Lines 54-62 of [all]: the rows handed to [tabulate], computed from
    the committed rows of the [events] table. *)
Definition all_rows (rows : list record) : list (pyval * nat) :=
  let q := group_count "t" rows in
  let l := q in
  reverse (sorted_by_count l).

(** ** A run of the cog *)

(** What the event loop delivers to the cog. *)
Inductive delivery :=
  | SocketResponse (data : pydict)
  | MessageCreate (message : Message)
  | Typing (channel : Channel) (user : Member)
  | MessageDelete (message : Message)
  | MessageEdit (old message : Message)
  | MemberBan (member : Member)
  | MemberUnban (server : Server) (member : Member)
  | MemberJoin (member : Member)
  | MemberRemove (member : Member).

Definition handle (bot : Bot) (d : delivery) : M unit :=
  match d with
  | SocketResponse data => on_socket_response bot data
  | MessageCreate message => on_message bot message
  | Typing channel user => on_typing bot channel user
  | MessageDelete message => on_message_delete bot message
  | MessageEdit old message => on_message_edit bot old message
  | MemberBan member => on_member_ban bot member
  | MemberUnban server member => on_member_unban bot server member
  | MemberJoin member => on_member_join bot member
  | MemberRemove member => on_member_remove bot member
  end.

(** A run of the cog: each delivery is handled on the state the previous
    ones left, with the collaborators answering as they do at that moment.
    An exception ends the handler that raised it, and what it did before
    stays done.  (Handlers are run to completion one after the other; the
    interleaving of handlers suspended on a call is not modelled.) *)
Fixpoint run (ds : list (Bot * delivery)) (w : World) : World :=
  match ds with
  | [] => w
  | (bot, d) :: ds' => run ds' (handle bot d w).2
  end.

(** ** States reached from a given one *)

(** [w] after a warning was logged. *)
Definition warned (event : pyval) (data : pydict) (w : World) : World :=
  mkWorld (events w) (table w) (journal w ++ [CWarn event data]).

(** [w] after one more event of kind [k] was counted. *)
Definition counted (k : hkey) (w : World) : World :=
  mkWorld (increment k (events w)) (table w) (journal w).

(** [w] after [rdblog.log(row)] was called: the call is journalled, and
    the row committed if the store accepts it. *)
Definition appended (bot : Bot) (row : record) (w : World) : World :=
  mkWorld (events w)
    (if rdblog_accepts bot row then table w ++ [row] else table w)
    (journal w ++ [CLog row]).

(** A store that rejects every append, a resolver that knows no
    subscription, a channel that delivers. *)
Definition failing_store_bot : Bot :=
  {| rdblog_accepts := λ _, false;
     log_message_row := λ _, None;
     get_event_message := λ _ _ _, Ok None;
     send_accepts := λ _ _, true;
     sequence := PInt 17;
     format_other := λ _ _ _ _ _, Raise TypeError;
     unicode_decimal := λ _, None |}.

(** The same with a store that accepts every append. *)
Definition working_bot : Bot :=
  {| rdblog_accepts := λ _, true;
     log_message_row := λ _, Some [("t", PStr "MESSAGE_CREATE")];
     get_event_message := λ _ _ _, Ok None;
     send_accepts := λ _ _, true;
     sequence := PInt 17;
     format_other := λ _ _ _ _ _, Raise TypeError;
     unicode_decimal := λ _, None |}.

(** A well-formed presence frame. *)
Definition presence_frame : pydict :=
  [("t", PStr "PRESENCE_UPDATE"); ("s", PInt 5); ("op", PInt 0);
   ("d", PDict [("guild_id", PStr "81384788765712384");
                ("user", PDict [("id", PStr "80351110224678912")]);
                ("game", PNone); ("status", PStr "online")])].

Definition presence_row : record :=
  [("t", PStr "PRESENCE_UPDATE"); ("server_id", PStr "81384788765712384");
   ("member_id", PStr "80351110224678912"); ("game", PNone)].

Definition empty_world : World := mkWorld ∅ [] [].

(** A computation that leaves the counter alone. *)
Definition keeps_events {A} (m : M A) : Prop :=
  ∀ w, events (m w).2 = events w.

(** A world in which PRESENCE_UPDATE was counted three times. *)
Definition counted_world : World :=
  mkWorld {[ HStr "PRESENCE_UPDATE" := 3 ]} [] [].

(** [w] after the resolver was asked. *)
Definition resolved (server : Server) (category default : string) (w : World) : World :=
  mkWorld (events w) (table w) (journal w ++ [CResolve server category default]).

(** [w] after [send_message] was called. *)
Definition sent (channel : Channel) (text : string) (w : World) : World :=
  mkWorld (events w) (table w) (journal w ++ [CSend channel text]).

(** The row a lifecycle handler logs. *)
Definition lifecycle_row (kind : string) (member : Member) (server : Server) : record :=
  [("t", PStr kind); ("member_id", PStr (member_id member));
   ("member_name", PStr (member_name member));
   ("server_id", PStr (server_id server))].

(** The keyword arguments a lifecycle handler formats its template with. *)
Definition lifecycle_fields (member : Member) (server : Server) (channel : Channel)
    : list (string * pyobj) :=
  [("member", member_obj member); ("server", server_obj server);
   ("channel", channel_obj channel)].

(** One lifecycle flow: the handler, the row it logs, and the server,
    category and default template it asks the resolver about. *)
Record flow := {
  flow_handler : M unit;
  flow_kind : string;
  flow_server : Server;
  flow_category : string;
  flow_default : string
}.

(** The four lifecycle flows of the cog, for a member and, for an unban,
    the server the event names. *)
Definition lifecycle_flows (bot : Bot) (member : Member) (server : Server) : list flow :=
  [ {| flow_handler := on_member_join bot member;
       flow_kind := "GUILD_MEMBER_ADD";
       flow_server := member_server member;
       flow_category := "joins";
       flow_default := "Welcome {member.name}!" |};
    {| flow_handler := on_member_remove bot member;
       flow_kind := "GUILD_MEMBER_REMOVE";
       flow_server := member_server member;
       flow_category := "leaves";
       flow_default := "Bye {member.name}!" |};
    {| flow_handler := on_member_ban bot member;
       flow_kind := "GUILD_BAN_ADD";
       flow_server := member_server member;
       flow_category := "bans";
       flow_default := "`{member.name}` got **bent**" |};
    {| flow_handler := on_member_unban bot server member;
       flow_kind := "GUILD_BAN_REMOVE";
       flow_server := server;
       flow_category := "unbans";
       flow_default := "`{member.name}` got **unbent**" |} ].

(** A lifecycle flow written once: log the row, ask the resolver, and if
    it names a channel and a template, format and send. *)
Definition lifecycle (bot : Bot) (member : Member) (f : flow) : M unit :=
  rdblog_log bot (lifecycle_row (flow_kind f) member (flow_server f));;
  i ← rethinkdb_get_event_message bot (flow_server f) (flow_category f) (flow_default f);
  match i with
  | None => mret ()
  | Some (channel, event_msg) =>
      msg ← lift (str_format bot event_msg
                    (lifecycle_fields member (flow_server f) channel));
      send_message bot channel msg
  end.

Definition ada : Member :=
  {| member_id := "80351110224678912"; member_name := "Ada";
     member_server :=
       {| server_id := "7"; server_name := "Analytical Engines";
          server_str := "Analytical Engines"; server_other := [] |};
     member_str := "Ada"; member_other := [] |}.

Definition lobby : Channel :=
  {| channel_id := "9"; channel_name := "lobby"; channel_str := "lobby";
     channel_other := [] |}.

(** A bot whose resolver answers every question with [lobby] and the
    given template. *)
Definition subscribed_bot (template : string) : Bot :=
  {| rdblog_accepts := λ _, true;
     log_message_row := λ _, None;
     get_event_message := λ _ _ _, Ok (Some (lobby, template));
     send_accepts := λ _ _, true;
     sequence := PNone;
     format_other := λ _ _ _ _ _, Raise TypeError;
     unicode_decimal := λ _, None |}.

(** [bot] with a resolver that knows no subscription. *)
Definition unsubscribed (bot : Bot) : Bot :=
  {| rdblog_accepts := rdblog_accepts bot;
     log_message_row := log_message_row bot;
     get_event_message := λ _ _ _, Ok None;
     send_accepts := send_accepts bot;
     sequence := sequence bot;
     format_other := format_other bot;
     unicode_decimal := unicode_decimal bot |}.

(** The four deliveries that start a lifecycle flow, each with its flow. *)
Definition lifecycle_deliveries (bot : Bot) (member : Member) (server : Server)
    : list (delivery * flow) :=
  zip [MemberJoin member; MemberRemove member; MemberBan member;
       MemberUnban server member]
    (lifecycle_flows bot member server).

(** The argument name of a replacement field: what [format] looks up
    among its arguments. *)
Definition piece_argument (p : piece) : option string :=
  match p with
  | Field name _ _ => Some (field_name_split name).1
  | _ => None
  end.

(** The argument names a template refers to, in order. *)
Definition placeholders (template : string) : list string :=
  omap piece_argument (markup (InText EmptyString) template).

(** Text without braces. *)
Fixpoint plain_text (s : string) : bool :=
  match s with
  | EmptyString => true
  | String c s' => negb (Ascii.eqb c "{") && negb (Ascii.eqb c "}") && plain_text s'
  end.

(** A character that is just part of a name inside a replacement field. *)
Definition name_char (c : ascii) : bool :=
  negb (Ascii.eqb c "{") && negb (Ascii.eqb c "}") && negb (Ascii.eqb c "[")
  && negb (Ascii.eqb c "]") && negb (Ascii.eqb c ".") && negb (Ascii.eqb c "!")
  && negb (Ascii.eqb c ":").

Fixpoint name_chars (s : string) : bool :=
  match s with
  | EmptyString => true
  | String c s' => name_char c && name_chars s'
  end.

(** A keyword-argument name as a template can spell it: made of name
    characters, the first of them an ASCII character that is no digit, so
    that [format] reads it as a name and not as a number. *)
Definition plain_name (s : string) : bool :=
  match s with
  | EmptyString => false
  | String c _ => is_ascii c && negb (is_digit c) && name_chars s
  end.

(** How many rows have kind [k]. *)
Definition occurrences (k : pyval) (rows : list record) : nat :=
  length (filter (λ row, dict_get "t" row = k) rows).

(** A row of kind [kind] logged for member [who]. *)
Definition row_of (kind who : string) : record :=
  [("t", PStr kind); ("member_id", PStr who)].

(** ** What one frame can do *)

(** The kind a row carries under ["t"], if it is a string. *)
Definition row_kind (row : record) : option string :=
  match dict_item "t" row with
  | Some (PStr kind) => Some kind
  | _ => None
  end.

(** The row a frame has appended, and the key it is then counted under:
    a PRESENCE_UPDATE row for a frame tagged PRESENCE_UPDATE, or the
    heartbeat row for a frame tagged with the literal HEATBEAT_ACK. *)
Definition frame_row (bot : Bot) (data : pydict) (row : record) (k : hkey) : Prop :=
  (dict_get "t" data = PStr "PRESENCE_UPDATE" ∧
   row_kind row = Some "PRESENCE_UPDATE" ∧ k = HStr "PRESENCE_UPDATE") ∨
  (dict_get "t" data = PStr "HEATBEAT_ACK" ∧
   row = [("t", PStr "HEARTBEAT_ACK"); ("seq", sequence bot)] ∧
   k = HStr "HEATBEAT_ACK").

(** The ways the handling of one frame can end, from the state [w] it
    started in: it raises before anything was done; the kind is unknown,
    a warning is logged and [None] counted; the kind is counted and nothing
    else happens; a row is appended and the kind counted; or the append is
    rejected. *)
Inductive frame_outcome (bot : Bot) (data : pydict) (w : World)
    : result unit * World → Prop :=
  | FrameRaises (e : exn) :
      e ∈ [TypeError; KeyError "d"; AttributeError] →
      frame_outcome bot data w (Raise e, w)
  | FrameUnknown :
      truthy (dict_get "t" data) = false →
      frame_outcome bot data w (Ok (), counted HNone (warned PNone data w))
  | FrameCounted (k : hkey) :
      k ≠ HStr "PRESENCE_UPDATE" →
      k ≠ HStr "HEATBEAT_ACK" →
      frame_outcome bot data w (Ok (), counted k w)
  | FrameLogged (row : record) (k : hkey) :
      frame_row bot data row k →
      rdblog_accepts bot row = true →
      frame_outcome bot data w (Ok (), counted k (appended bot row w))
  | FrameRejected (row : record) (k : hkey) :
      frame_row bot data row k →
      rdblog_accepts bot row = false →
      frame_outcome bot data w (Raise StoreError, appended bot row w).

(** ** Totals over a run *)

(** The sum of all counts of the counter. *)
Definition counter_total (c : gmap hkey nat) : nat :=
  map_fold (λ _ n total, (n + total)%nat) 0%nat c.

(** How many gateway frames of a run are handled to completion. *)
Fixpoint frames_completed (ds : list (Bot * delivery)) (w : World) : nat :=
  match ds with
  | [] => 0
  | (bot, d) :: ds' =>
      (match d, handle bot d w with
       | SocketResponse _, (Ok _, _) => 1
       | _, _ => 0
       end + frames_completed ds' (handle bot d w).2)%nat
  end.

(** A delivery that is not a gateway frame. *)
Definition is_frame (d : delivery) : bool :=
  match d with
  | SocketResponse _ => true
  | _ => false
  end.

(** ** What a computation adds to the table and to the journal *)

(** The kinds of the rows the cog itself hands to [rdblog.log]. *)
Definition known_kinds : list string :=
  ["PRESENCE_UPDATE"; "HEARTBEAT_ACK"; "TYPING_START"; "MESSAGE_DELETE";
   "MESSAGE_UPDATE"; "GUILD_BAN_ADD"; "GUILD_BAN_REMOVE"; "GUILD_MEMBER_ADD";
   "GUILD_MEMBER_REMOVE"].

(** The kinds of the rows logged by the handlers other than
    [on_socket_response]. *)
Definition handler_kinds : list string :=
  ["TYPING_START"; "MESSAGE_DELETE"; "MESSAGE_UPDATE"; "GUILD_BAN_ADD";
   "GUILD_BAN_REMOVE"; "GUILD_MEMBER_ADD"; "GUILD_MEMBER_REMOVE"].

Definition has_kind_in (kinds : list string) (row : record) : Prop :=
  ∃ kind, row_kind row = Some kind ∧ kind ∈ kinds.

(** A call that, if it is an append, appends a row of one of [kinds]. *)
Definition logs_kind_in (kinds : list string) (c : call) : Prop :=
  match c with
  | CLog row => has_kind_in kinds row
  | _ => True
  end.

(** A row committed on behalf of the cog: a row of one of [kinds], or the
    row [rdblog.log_message] writes for some message. *)
Definition cog_row (kinds : list string) (bot : Bot) (row : record) : Prop :=
  has_kind_in kinds row ∨ ∃ message, log_message_row bot message = Some row.

(** [m] only adds to the table and to the journal: rows that satisfy [P]
    and calls that satisfy [Q]. *)
Definition effects {A} (P : record → Prop) (Q : call → Prop) (m : M A) : Prop :=
  ∀ w, ∃ rows calls,
    table (m w).2 = table w ++ rows ∧
    journal (m w).2 = journal w ++ calls ∧
    Forall P rows ∧ Forall Q calls.

(** [rdblog.log_message], as this bot has it, writes no presence rows. *)
Definition messages_are_not_presence (bot : Bot) : Prop :=
  ∀ message row,
    log_message_row bot message = Some row →
    dict_get "t" row ≠ PStr "PRESENCE_UPDATE".

(** ** Rendering piece by piece *)

(** [text] put in front of a rendering, if there is one. *)
Definition prepend (text : string) (r : result string) : result string :=
  match r with
  | Ok s => Ok (text +:+ s)
  | Raise e => Raise e
  end.

(** A character that can stand in a field name without ending it: any
    but the braces, the opening bracket, the colon and the exclamation
    mark. *)
Definition field_char (c : ascii) : bool :=
  negb (Ascii.eqb c "{") && negb (Ascii.eqb c "}") && negb (Ascii.eqb c "[")
  && negb (Ascii.eqb c ":") && negb (Ascii.eqb c "!").

Fixpoint field_chars (s : string) : bool :=
  match s with
  | EmptyString => true
  | String c s' => field_char c && field_chars s'
  end.

(** ** The [events] command: the ten most frequent kinds *)

(** [sorted(items, key=count, reverse=True)]: descending by count and
    stable (an entry stays before the entries of equal count that
    followed it). *)
Fixpoint insert_by_count_desc (x : hkey * nat) (l : list (hkey * nat))
    : list (hkey * nat) :=
  match l with
  | [] => [x]
  | y :: l' =>
      if (y.2 <=? x.2)%nat then x :: y :: l' else y :: insert_by_count_desc x l'
  end.

Fixpoint sorted_by_count_desc (l : list (hkey * nat)) : list (hkey * nat) :=
  match l with
  | [] => []
  | x :: l' => insert_by_count_desc x (sorted_by_count_desc l')
  end.

(** [Counter.most_common(n)] on the counter's items, given in the order
    in which the counter holds them (the order in which its keys were
    first counted): the [n] first entries of the items sorted by
    descending count. *)
Definition most_common (n : nat) (items : list (hkey * nat)) : list (hkey * nat) :=
  take n (sorted_by_count_desc items).

(** Line 39 of [events]: the rows handed to [tabulate]. *)
Definition events_rows (items : list (hkey * nat)) : list (hkey * nat) :=
  most_common 10 items.

(** A delivery handled by one of the four message handlers. *)
Definition is_message (d : delivery) : bool :=
  match d with
  | MessageCreate _ | Typing _ _ | MessageDelete _ | MessageEdit _ _ => true
  | _ => false
  end.

(** * Verification *)

(** ** The monad, run one statement at a time *)

Lemma bind_run {A B} (m : M A) (f : A → M B) (w : World) :
  (m ≫= f) w =
    match m w with
    | (Ok a, w') => f a w'
    | (Raise e, w') => (Raise e, w')
    end.
Proof. reflexivity. Qed.

Lemma bind_lift_ok {A B} (a : A) (f : A → M B) (w : World) :
  (lift (Ok a) ≫= f) w = f a w.
Proof. reflexivity. Qed.

Lemma bind_lift_raise {A B} (e : exn) (f : A → M B) (w : World) :
  (lift (Raise e) ≫= f) w = (Raise e, w).
Proof. reflexivity. Qed.

Lemma bind_ret {A B} (a : A) (f : A → M B) (w : World) :
  (mret a ≫= f) w = f a w.
Proof. reflexivity. Qed.

Ltac run_M :=
  repeat first
    [ rewrite bind_lift_ok | rewrite bind_lift_raise | rewrite bind_ret
    | rewrite bind_run ];
  cbn.

(** ** Classification *)

Lemma truthy_tag (tag : string) : tag ≠ EmptyString → truthy (PStr tag) = true.
Proof. intros Hne. cbn. by destruct (String.eqb_spec tag EmptyString). Qed.

Lemma unknown_events_other (n : Z) :
  n ≠ 7%Z → n ≠ 9%Z → n ≠ 10%Z → n ≠ 11%Z → unknown_events !! n = None.
Proof.
  intros. unfold unknown_events.
  rewrite !lookup_insert_ne by done. apply lookup_empty.
Qed.

Lemma classify_tag (data : pydict) (tag : string) (w : World) :
  dict_get "t" data = PStr tag →
  tag ≠ EmptyString →
  classify data w = (Ok (PStr tag), w).
Proof.
  intros Ht Hne. unfold classify.
  rewrite Ht, (truthy_tag tag Hne). reflexivity.
Qed.

(** C7.  A frame whose type tag is a non-empty string is classified as
    exactly that tag, whatever its op-code and whether or not the tag is a
    known one: classification touches nothing, and unless the tag selects
    one of the two logging branches the frame is counted under that very
    tag. *)
Theorem classify_tagged (bot : Bot) (data : pydict) (tag : string) (w : World) :
  dict_get "t" data = PStr tag →
  tag ≠ EmptyString →
  classify data w = (Ok (PStr tag), w) ∧
  (tag ≠ "PRESENCE_UPDATE" → tag ≠ "HEATBEAT_ACK" →
   on_socket_response bot data w = (Ok (), counted (HStr tag) w)).
Proof.
  intros Ht Hne. split; [by apply classify_tag |].
  intros Hp Hh. unfold on_socket_response.
  rewrite bind_run, (classify_tag data tag w Ht Hne). cbn [eq_str].
  apply String.eqb_neq in Hp, Hh. rewrite Hp, Hh. reflexivity.
Qed.

Lemma classify_tagged_witness :
  let data := [("t", PStr "SOME_NEW_EVENT"); ("op", PInt 11)] in
  classify data empty_world = (Ok (PStr "SOME_NEW_EVENT"), empty_world) ∧
  on_socket_response working_bot data empty_world
  = (Ok (), counted (HStr "SOME_NEW_EVENT") empty_world).
Proof.
  intros data.
  destruct (classify_tagged working_bot data "SOME_NEW_EVENT" empty_world)
    as [Hc Hr]; [reflexivity | discriminate |].
  split; [exact Hc | apply Hr; discriminate].
Defined.

Lemma classify_untagged_known (data : pydict) (n : Z) (name : string) (w : World) :
  truthy (dict_get "t" data) = false →
  dict_get "op" data = PInt n →
  unknown_events !! n = Some name →
  name ≠ EmptyString →
  classify data w = (Ok (PStr name), w).
Proof.
  intros Ht Hop Hn Hne. unfold classify, unknown_events_get.
  rewrite Ht, Hop. cbn. rewrite Hn. run_M.
  by destruct (String.eqb_spec name EmptyString).
Qed.

Lemma classify_untagged_unknown (data : pydict) (n : Z) (w : World) :
  truthy (dict_get "t" data) = false →
  dict_get "op" data = PInt n →
  unknown_events !! n = None →
  classify data w = (Ok PNone, warned PNone data w).
Proof.
  intros Ht Hop Hn. unfold classify, unknown_events_get.
  rewrite Ht, Hop. cbn. rewrite Hn. reflexivity.
Qed.

(** C2.  A frame whose type tag is empty or absent is classified by its
    op-code: 7, 9, 10 and 11 give RECONNECT, INVALIDATE_SESSION, READY and
    HEARTBEAT_ACK; every other op-code gives the unknown kind, which is
    [None]: a warning is logged, nothing is raised, and the frame is
    counted under [None]. *)
Theorem classify_untagged (bot : Bot) (data : pydict) (n : Z) (w : World) :
  truthy (dict_get "t" data) = false →
  dict_get "op" data = PInt n →
  (n = 7%Z → classify data w = (Ok (PStr "RECONNECT"), w)) ∧
  (n = 9%Z → classify data w = (Ok (PStr "INVALIDATE_SESSION"), w)) ∧
  (n = 10%Z → classify data w = (Ok (PStr "READY"), w)) ∧
  (n = 11%Z → classify data w = (Ok (PStr "HEARTBEAT_ACK"), w)) ∧
  (n ≠ 7%Z → n ≠ 9%Z → n ≠ 10%Z → n ≠ 11%Z →
     classify data w = (Ok PNone, warned PNone data w) ∧
     on_socket_response bot data w = (Ok (), counted HNone (warned PNone data w))).
Proof.
  intros Ht Hop.
  repeat split; try (intros ->; by eapply classify_untagged_known).
  - intros. apply (classify_untagged_unknown data n w Ht Hop).
    by apply unknown_events_other.
  - intros. unfold on_socket_response. rewrite bind_run.
    rewrite (classify_untagged_unknown data n w Ht Hop)
      by by apply unknown_events_other.
    reflexivity.
Qed.

Lemma classify_untagged_witness :
  let data := [("t", PNone); ("s", PNone); ("op", PInt 4); ("d", PNone)] in
  classify data empty_world = (Ok PNone, warned PNone data empty_world) ∧
  on_socket_response working_bot data empty_world
  = (Ok (), counted HNone (warned PNone data empty_world)).
Proof.
  intros data.
  apply (classify_untagged working_bot data 4 empty_world);
    [reflexivity | reflexivity | done..].
Defined.

(** C10.  A frame without a type tag and with op-code 11 is classified
    HEARTBEAT_ACK, which is neither ["PRESENCE_UPDATE"] nor the literal
    ["HEATBEAT_ACK"] the logging branch tests for: no call is issued, no
    row is committed, and the only change is one more HEARTBEAT_ACK in the
    counter. *)
Theorem heartbeat_ack_only_counted (bot : Bot) (data : pydict) (w : World) :
  truthy (dict_get "t" data) = false →
  dict_get "op" data = PInt 11 →
  on_socket_response bot data w = (Ok (), counted (HStr "HEARTBEAT_ACK") w).
Proof.
  intros Ht Hop. unfold on_socket_response. rewrite bind_run.
  rewrite (classify_untagged_known data 11 "HEARTBEAT_ACK" w Ht Hop)
    by done.
  reflexivity.
Qed.

Lemma heartbeat_ack_only_counted_witness :
  on_socket_response working_bot
    [("t", PNone); ("s", PNone); ("op", PInt 11); ("d", PNone)]
    empty_world
  = (Ok (), counted (HStr "HEARTBEAT_ACK") empty_world).
Proof.
  apply heartbeat_ack_only_counted; reflexivity.
Defined.

(** C4.  A PRESENCE_UPDATE frame whose payload has no ["user"] (or a null
    one) makes [on_socket_response] raise: [.get("user", None)] yields
    [None], and [None] has no [get].  Nothing is logged and the frame is
    not counted. *)
Theorem presence_without_user_raises (bot : Bot) (data d : pydict) (w : World) :
  dict_get "t" data = PStr "PRESENCE_UPDATE" →
  dict_item "d" data = Some (PDict d) →
  dict_get "user" d = PNone →
  on_socket_response bot data w = (Raise AttributeError, w).
Proof.
  intros Ht Hd Hu. unfold on_socket_response.
  rewrite bind_run, (classify_tag data "PRESENCE_UPDATE" w Ht) by done.
  cbn [eq_str]. rewrite String.eqb_refl.
  unfold subscript. rewrite Hd. run_M. by rewrite Hu.
Qed.

Lemma presence_without_user_raises_witness :
  on_socket_response working_bot
    [("t", PStr "PRESENCE_UPDATE"); ("s", PInt 6); ("op", PInt 0);
     ("d", PDict [("guild_id", PStr "81384788765712384");
                  ("status", PStr "online")])]
    empty_world
  = (Raise AttributeError, empty_world).
Proof.
  apply (presence_without_user_raises working_bot _
           [("guild_id", PStr "81384788765712384"); ("status", PStr "online")]);
    reflexivity.
Defined.

(** ** The order of the log append and the counter update *)

Lemma rdblog_log_run (bot : Bot) (row : record) (w : World) :
  rdblog_log bot row w =
    (if rdblog_accepts bot row then Ok () else Raise StoreError,
     appended bot row w).
Proof.
  unfold rdblog_log, appended. run_M. by destruct (rdblog_accepts bot row).
Qed.

Lemma snoc_not_self {A} (l : list A) (x : A) : l ≠ l ++ [x].
Proof.
  intros H. apply (f_equal length) in H. rewrite length_app in H. cbn in H. lia.
Qed.

Lemma count_event_journal (event : pyval) (w : World) :
  journal (count_event event w).2 = journal w.
Proof. unfold count_event. by destruct (hash_key event). Qed.

Lemma eq_str_true (v : pyval) (lit : string) : eq_str v lit = true → v = PStr lit.
Proof.
  destruct v; cbn; try discriminate.
  intros H. by apply String.eqb_eq in H as ->.
Qed.

(** What [on_socket_response] does once the kind is known. *)
Lemma on_socket_response_run (bot : Bot) (data : pydict) (w w1 : World) (event : pyval) :
  classify data w = (Ok event, w1) →
  on_socket_response bot data w =
    ((if eq_str event "PRESENCE_UPDATE" then
        d ← lift (subscript data "d");
        server_id ← lift (method_get d "guild_id");
        user ← lift (method_get d "user");
        member_id ← lift (method_get user "id");
        game ← lift (method_get d "game");
        rdblog_log bot
          [("t", PStr "PRESENCE_UPDATE"); ("server_id", server_id);
           ("member_id", member_id); ("game", game)]
      else if eq_str event "HEATBEAT_ACK" then
        rdblog_log bot [("t", PStr "HEARTBEAT_ACK"); ("seq", sequence bot)]
      else mret ());;
     count_event event) w1.
Proof. intros Hc. unfold on_socket_response. by rewrite bind_run, Hc. Qed.

(** A frame that is neither a PRESENCE_UPDATE nor tagged with the literal
    HEATBEAT_ACK goes straight to the counter update. *)
Lemma count_without_append (bot : Bot) (data : pydict) (w w1 : World) (event : pyval) :
  classify data w = (Ok event, w1) →
  eq_str event "PRESENCE_UPDATE" = false →
  eq_str event "HEATBEAT_ACK" = false →
  on_socket_response bot data w = count_event event w1.
Proof.
  intros Hc Hp Hh.
  rewrite (on_socket_response_run bot data w w1 event Hc), Hp, Hh.
  reflexivity.
Qed.

(** When an append is issued, what follows depends on its outcome. *)
Lemma count_after_append (bot : Bot) (data : pydict) (w w1 : World) (event : pyval)
    (row : record) :
  classify data w = (Ok event, w1) →
  journal (on_socket_response bot data w).2 = journal w1 ++ [CLog row] →
  ∃ k, hash_key event = Some k ∧
    on_socket_response bot data w =
      if rdblog_accepts bot row
      then (Ok (), counted k (appended bot row w1))
      else (Raise StoreError, appended bot row w1).
Proof.
  intros Hc. rewrite (on_socket_response_run bot data w w1 event Hc).
  destruct (eq_str event "PRESENCE_UPDATE") eqn:Hp;
    [| destruct (eq_str event "HEATBEAT_ACK") eqn:Hh ].
  - apply eq_str_true in Hp as ->.
    destruct (subscript data "d") as [d|e]; run_M;
      [| intros H; by apply snoc_not_self in H].
    destruct (method_get d "guild_id") as [sid|e]; run_M;
      [| intros H; by apply snoc_not_self in H].
    destruct (method_get d "user") as [user|e]; run_M;
      [| intros H; by apply snoc_not_self in H].
    destruct (method_get user "id") as [mid|e]; run_M;
      [| intros H; by apply snoc_not_self in H].
    destruct (method_get d "game") as [game|e]; run_M;
      [| intros H; by apply snoc_not_self in H].
    rewrite rdblog_log_run.
    destruct (rdblog_accepts bot _) eqn:Hacc; cbn;
      intros H; apply app_inj_tail in H as [_ [= <-]];
      exists (HStr "PRESENCE_UPDATE"); rewrite Hacc;
      (split; [done|]); unfold counted, appended; cbn; by rewrite Hacc.
  - apply eq_str_true in Hh as ->. run_M.
    rewrite rdblog_log_run.
    destruct (rdblog_accepts bot _) eqn:Hacc; cbn;
      intros H; apply app_inj_tail in H as [_ [= <-]];
      exists (HStr "HEATBEAT_ACK"); rewrite Hacc;
      (split; [done|]); unfold counted, appended; cbn; by rewrite Hacc.
  - run_M. rewrite count_event_journal.
    intros H. by apply snoc_not_self in H.
Qed.

(** C1, as the code has it.  The counter update is the last statement of
    [on_socket_response].  A frame of any kind other than PRESENCE_UPDATE
    and the literal tag HEATBEAT_ACK issues no append and goes straight to
    the counter update.  Whenever an append is issued for a frame, the
    counter is updated after it and only if the store accepted the row: a
    rejected append ends the handler with the counter as it was. *)
Theorem increment_follows_append (bot : Bot) (data : pydict) (w w1 : World) (event : pyval) :
  classify data w = (Ok event, w1) →
  (eq_str event "PRESENCE_UPDATE" = false →
   eq_str event "HEATBEAT_ACK" = false →
   on_socket_response bot data w = count_event event w1) ∧
  (∀ row,
     journal (on_socket_response bot data w).2 = journal w1 ++ [CLog row] →
     ∃ k, hash_key event = Some k ∧
       on_socket_response bot data w =
         if rdblog_accepts bot row
         then (Ok (), counted k (appended bot row w1))
         else (Raise StoreError, appended bot row w1)).
Proof.
  intros Hc. split.
  - by apply count_without_append.
  - intros row. by apply count_after_append.
Qed.

Lemma increment_follows_append_witness :
  let message_frame := [("t", PStr "MESSAGE_CREATE"); ("s", PInt 7); ("op", PInt 0)] in
  on_socket_response failing_store_bot message_frame empty_world
  = count_event (PStr "MESSAGE_CREATE") empty_world ∧
  ∃ k, hash_key (PStr "PRESENCE_UPDATE") = Some k ∧
    on_socket_response failing_store_bot presence_frame empty_world
    = (Raise StoreError, appended failing_store_bot presence_row empty_world).
Proof.
  intros message_frame. split.
  - apply (proj1 (increment_follows_append failing_store_bot message_frame
                    empty_world empty_world (PStr "MESSAGE_CREATE") eq_refl));
      reflexivity.
  - apply (proj2 (increment_follows_append failing_store_bot presence_frame
                    empty_world empty_world (PStr "PRESENCE_UPDATE") eq_refl)
             presence_row).
    reflexivity.
Defined.

(** C1 fails on the code: with a store that rejects the append, a
    well-formed PRESENCE_UPDATE frame has its append issued and is never
    counted, so it is not true that a frame's kind is counted whatever
    becomes of its log append. *)
Lemma log_failure_prevents_increment :
  on_socket_response failing_store_bot presence_frame empty_world
  = (Raise StoreError, mkWorld ∅ [] [CLog presence_row]) ∧
  ¬ (∀ bot data w event w1 k,
       classify data w = (Ok event, w1) →
       hash_key event = Some k →
       counter_get (events (on_socket_response bot data w).2) k
       = S (counter_get (events w) k)).
Proof.
  split; [reflexivity |]. intros H.
  specialize (H failing_store_bot presence_frame empty_world
                (PStr "PRESENCE_UPDATE") empty_world (HStr "PRESENCE_UPDATE")
                eq_refl eq_refl).
  discriminate H.
Qed.

(** ** The counter over a run *)

Lemma counter_get_increment (k : hkey) (c : gmap hkey nat) :
  counter_get (increment k c) k = S (counter_get c k).
Proof. unfold counter_get, increment. by rewrite lookup_insert_eq. Qed.

Lemma counter_get_increment_ne (k k' : hkey) (c : gmap hkey nat) :
  k ≠ k' → counter_get (increment k c) k' = counter_get c k'.
Proof. intros. unfold counter_get, increment. by rewrite lookup_insert_ne. Qed.

Lemma increment_absent (k : hkey) (c : gmap hkey nat) :
  c !! k = None → increment k c !! k = Some 1.
Proof.
  intros H. unfold increment, counter_get. by rewrite lookup_insert_eq, H.
Qed.

Lemma counter_get_increment_le (k k' : hkey) (c : gmap hkey nat) :
  (counter_get c k' ≤ counter_get (increment k c) k')%nat.
Proof.
  destruct (decide (k = k')) as [->|].
  - rewrite counter_get_increment. lia.
  - by rewrite counter_get_increment_ne.
Qed.

Lemma keeps_events_ret {A} (a : A) : keeps_events (mret a : M A).
Proof. by intros w. Qed.

Lemma keeps_events_lift {A} (r : result A) : keeps_events (lift r).
Proof. by intros w. Qed.

Lemma keeps_events_raise {A} (e : exn) : keeps_events (raise e : M A).
Proof. by intros w. Qed.

Lemma keeps_events_issue (c : call) : keeps_events (issue c).
Proof. by intros w. Qed.

Lemma keeps_events_commit (row : record) : keeps_events (commit row).
Proof. by intros w. Qed.

Lemma keeps_events_bind {A B} (m : M A) (f : A → M B) :
  keeps_events m → (∀ a, keeps_events (f a)) → keeps_events (m ≫= f).
Proof.
  intros Hm Hf w. rewrite bind_run. specialize (Hm w).
  destruct (m w) as [[a|e] w']; cbn in *; [| done].
  by rewrite Hf.
Qed.

Create HintDb keeps.

#[local] Hint Resolve keeps_events_ret keeps_events_lift keeps_events_raise
  keeps_events_issue keeps_events_commit : keeps.

Ltac keeps_events :=
  repeat first
    [ apply keeps_events_bind; [| intros ? ]
    | match goal with
      | |- keeps_events (if ?b then _ else _) => destruct b
      | |- keeps_events (match ?x with _ => _ end) => destruct x
      end
    | solve [ auto with keeps ] ].

Lemma keeps_events_rdblog_log (bot : Bot) (row : record) :
  keeps_events (rdblog_log bot row).
Proof. unfold rdblog_log. keeps_events. Qed.

Lemma keeps_events_rdblog_log_message (bot : Bot) (message : Message) :
  keeps_events (rdblog_log_message bot message).
Proof. unfold rdblog_log_message. keeps_events. Qed.

Lemma keeps_events_resolve (bot : Bot) (server : Server) (category default : string) :
  keeps_events (rethinkdb_get_event_message bot server category default).
Proof. unfold rethinkdb_get_event_message. keeps_events. Qed.

Lemma keeps_events_send (bot : Bot) (channel : Channel) (text : string) :
  keeps_events (send_message bot channel text).
Proof. unfold send_message. keeps_events. Qed.

Lemma keeps_events_classify (data : pydict) : keeps_events (classify data).
Proof. unfold classify. keeps_events. Qed.

#[local] Hint Resolve keeps_events_rdblog_log keeps_events_rdblog_log_message
  keeps_events_resolve keeps_events_send keeps_events_classify : keeps.

(** The part of [on_socket_response] between classification and
    counting. *)
Lemma keeps_events_frame_log (bot : Bot) (data : pydict) (event : pyval) :
  keeps_events
    (if eq_str event "PRESENCE_UPDATE" then
       d ← lift (subscript data "d");
       server_id ← lift (method_get d "guild_id");
       user ← lift (method_get d "user");
       member_id ← lift (method_get user "id");
       game ← lift (method_get d "game");
       rdblog_log bot
         [("t", PStr "PRESENCE_UPDATE"); ("server_id", server_id);
          ("member_id", member_id); ("game", game)]
     else if eq_str event "HEATBEAT_ACK" then
       rdblog_log bot [("t", PStr "HEARTBEAT_ACK"); ("seq", sequence bot)]
     else mret ()).
Proof. keeps_events. Qed.

(** Every handler but [on_socket_response] leaves the counter alone. *)
Lemma keeps_events_handle (bot : Bot) (d : delivery) :
  (∀ data, d ≠ SocketResponse data) → keeps_events (handle bot d).
Proof.
  intros Hd. destruct d; cbn;
    [ by destruct (Hd data) | .. ];
    unfold on_message, on_typing, on_message_delete, on_message_edit,
      on_member_ban, on_member_unban, on_member_join, on_member_remove;
    keeps_events.
Qed.

(** A frame is counted once when its handling completes, and not at all
    when it raises. *)
Lemma on_socket_response_events (bot : Bot) (data : pydict) (w : World) :
  match on_socket_response bot data w with
  | (Ok _, w') =>
      ∃ event w1 k, classify data w = (Ok event, w1) ∧
        hash_key event = Some k ∧ events w' = increment k (events w)
  | (Raise _, w') => events w' = events w
  end.
Proof.
  pose proof (keeps_events_classify data w) as Hc.
  destruct (classify data w) as [[event|e] w1] eqn:Hcl; cbn in Hc.
  - rewrite (on_socket_response_run bot data w w1 event Hcl), bind_run.
    pose proof (keeps_events_frame_log bot data event w1) as Hl.
    match goal with
    | |- match (match ?m with _ => _ end) with _ => _ end =>
        destruct m as [[[]|e] w2]
    end; cbn in Hl.
    + unfold count_event. destruct (hash_key event) as [k|] eqn:Hk; cbn.
      * exists event, w1, k. by rewrite Hl, Hc.
      * by rewrite Hl.
    + by rewrite Hl.
  - unfold on_socket_response. rewrite bind_run, Hcl. done.
Qed.

Lemma handle_events_le (bot : Bot) (d : delivery) (w : World) (k : hkey) :
  (counter_get (events w) k ≤ counter_get (events (handle bot d w).2) k)%nat.
Proof.
  destruct d as [data| | | | | | | |];
    [| rewrite keeps_events_handle; [done | by intros ?] .. ].
  cbn. pose proof (on_socket_response_events bot data w) as H.
  destruct (on_socket_response bot data w) as [[[]|e] w']; cbn.
  - destruct H as (event & w1 & k' & _ & _ & ->).
    apply counter_get_increment_le.
  - by rewrite H.
Qed.

(** C8, as the code has it.  Counting adds 1 to the kind's count and
    creates the entry with value 1 if it is absent; a frame whose handling
    completes is counted exactly once, under its classified kind; a frame
    whose log append is rejected is not counted; and over any run of the
    cog no count ever goes down. *)
Theorem counter_increments_never_decrements (bot : Bot) :
  (∀ k c, counter_get (increment k c) k = counter_get c k + 1 ∧
          (c !! k = None → increment k c !! k = Some 1) ∧
          (∀ k', k ≠ k' → counter_get (increment k c) k' = counter_get c k')) ∧
  (∀ data w w',
     on_socket_response bot data w = (Ok (), w') →
     ∃ event w1 k, classify data w = (Ok event, w1) ∧
       hash_key event = Some k ∧ events w' = increment k (events w)) ∧
  (∀ data w event w1 row,
     classify data w = (Ok event, w1) →
     journal (on_socket_response bot data w).2 = journal w1 ++ [CLog row] →
     rdblog_accepts bot row = false →
     events (on_socket_response bot data w).2 = events w) ∧
  (∀ ds w k,
     (counter_get (events w) k ≤ counter_get (events (run ds w)) k)%nat).
Proof.
  repeat split.
  - rewrite counter_get_increment. lia.
  - apply increment_absent.
  - intros. by apply counter_get_increment_ne.
  - intros data w w' H.
    pose proof (on_socket_response_events bot data w) as He.
    by rewrite H in He.
  - intros data w event w1 row Hc Hj Hrej.
    destruct (count_after_append bot data w w1 event row Hc Hj)
      as (k & _ & ->).
    rewrite Hrej. cbn. by rewrite <- (keeps_events_classify data w), Hc.
  - intros ds. induction ds as [|[bot' d] ds IH]; intros w k; cbn; [done|].
    etrans; [apply (handle_events_le bot' d w k) | apply IH].
Qed.

(** C8 fails on the code: with a store that rejects the append, a
    PRESENCE_UPDATE frame is classified and yet its count stays at 3, so it
    is not true that every classified frame is counted once. *)
Lemma classified_frame_not_counted :
  classify presence_frame counted_world
  = (Ok (PStr "PRESENCE_UPDATE"), counted_world) ∧
  counter_get (events counted_world) (HStr "PRESENCE_UPDATE") = 3 ∧
  counter_get
    (events (on_socket_response failing_store_bot presence_frame counted_world).2)
    (HStr "PRESENCE_UPDATE") = 3 ∧
  ¬ (∀ bot data w event w1 k,
       classify data w = (Ok event, w1) →
       hash_key event = Some k →
       events (on_socket_response bot data w).2 = increment k (events w)).
Proof.
  split_and!; [reflexivity.. |]. intros H.
  specialize (H failing_store_bot presence_frame counted_world
                (PStr "PRESENCE_UPDATE") counted_world (HStr "PRESENCE_UPDATE")
                eq_refl eq_refl).
  apply (f_equal (λ c, counter_get c (HStr "PRESENCE_UPDATE"))) in H.
  rewrite counter_get_increment in H. discriminate H.
Qed.

Lemma counter_increments_never_decrements_witness :
  let w' := mkWorld {[ HStr "PRESENCE_UPDATE" := 1 ]} [presence_row] [CLog presence_row] in
  (on_socket_response working_bot presence_frame empty_world = (Ok (), w') ∧
   ∃ event w1 k, classify presence_frame empty_world = (Ok event, w1) ∧
     hash_key event = Some k ∧ events w' = increment k (events empty_world)) ∧
  events (on_socket_response failing_store_bot presence_frame counted_world).2
  = events counted_world.
Proof.
  intros w'. split.
  - split; [reflexivity |].
    apply (proj1 (proj2 (counter_increments_never_decrements working_bot))).
    reflexivity.
  - apply (proj1 (proj2 (proj2 (counter_increments_never_decrements failing_store_bot)))
             presence_frame counted_world (PStr "PRESENCE_UPDATE") counted_world
             presence_row);
      reflexivity.
Defined.

(** ** Deleted and edited messages *)

(** C9.  The row logged for a deleted or an edited message carries the
    server's id under ["channel_id"] as well as under ["server_id"].  (A
    private message has no server: the handler raises before any row is
    built.) *)
Theorem delete_edit_channel_id_is_server_id (bot : Bot) (old message : Message) (w : World) :
  match message_server message with
  | Some server =>
      (∃ row,
         on_message_delete bot message w = rdblog_log bot row w ∧
         dict_item "t" row = Some (PStr "MESSAGE_DELETE") ∧
         dict_item "server_id" row = Some (PStr (server_id server)) ∧
         dict_item "channel_id" row = dict_item "server_id" row) ∧
      (∃ row,
         on_message_edit bot old message w = rdblog_log bot row w ∧
         dict_item "t" row = Some (PStr "MESSAGE_UPDATE") ∧
         dict_item "server_id" row = Some (PStr (server_id server)) ∧
         dict_item "channel_id" row = dict_item "server_id" row)
  | None =>
      on_message_delete bot message w = (Raise AttributeError, w) ∧
      on_message_edit bot old message w = (Raise AttributeError, w)
  end.
Proof.
  unfold on_message_delete, on_message_edit, message_server_id.
  destruct (message_server message) as [server|]; [| done].
  split; eexists; (split; [reflexivity | done]).
Qed.

(** ** Lifecycle events *)

(** The four handlers are the one flow, at four kinds. *)
Lemma lifecycle_flows_spec (bot : Bot) (member : Member) (server : Server) (f : flow) :
  f ∈ lifecycle_flows bot member server →
  flow_handler f = lifecycle bot member f.
Proof.
  unfold lifecycle_flows. rewrite !elem_of_cons, elem_of_nil.
  intros [-> | [-> | [-> | [-> | []]]]]; reflexivity.
Qed.

Lemma lifecycle_flows_kind (bot : Bot) (member : Member) (server : Server) (f : flow) :
  f ∈ lifecycle_flows bot member server →
  flow_kind f ∈ ["GUILD_MEMBER_ADD"; "GUILD_MEMBER_REMOVE";
                 "GUILD_BAN_ADD"; "GUILD_BAN_REMOVE"].
Proof.
  unfold lifecycle_flows. rewrite !elem_of_cons, elem_of_nil.
  intros [-> | [-> | [-> | [-> | []]]]]; cbn; set_solver.
Qed.

Lemma lifecycle_run (bot : Bot) (member : Member) (f : flow) (w : World) :
  lifecycle bot member f w =
    let row := lifecycle_row (flow_kind f) member (flow_server f) in
    if rdblog_accepts bot row then
      let w2 := resolved (flow_server f) (flow_category f) (flow_default f)
                  (appended bot row w) in
      match get_event_message bot (flow_server f) (flow_category f) (flow_default f) with
      | Ok None => (Ok (), w2)
      | Ok (Some (channel, event_msg)) =>
          match str_format bot event_msg
                  (lifecycle_fields member (flow_server f) channel) with
          | Ok msg =>
              (if send_accepts bot channel msg then Ok () else Raise SendError,
               sent channel msg w2)
          | Raise e => (Raise e, w2)
          end
      | Raise e => (Raise e, w2)
      end
    else (Raise StoreError, appended bot row w).
Proof.
  unfold lifecycle. rewrite bind_run, rdblog_log_run. cbn zeta.
  destruct (rdblog_accepts bot _) eqn:Hacc; [| done].
  unfold rethinkdb_get_event_message. run_M.
  unfold resolved, appended. rewrite Hacc. cbn.
  destruct (get_event_message bot _ _ _) as [[[channel event_msg]|]|e]; run_M;
    [| done | done ].
  destruct (str_format bot event_msg _) as [msg|e]; run_M; [| done].
  unfold send_message, sent. run_M.
  by destruct (send_accepts bot channel msg).
Qed.

(** A frame that carries a lifecycle tag is counted, and nothing else
    happens. *)
Lemma lifecycle_frame_counted (bot : Bot) (data : pydict) (tag : string) (w : World) :
  tag ∈ ["GUILD_MEMBER_ADD"; "GUILD_MEMBER_REMOVE";
         "GUILD_BAN_ADD"; "GUILD_BAN_REMOVE"] →
  dict_get "t" data = PStr tag →
  on_socket_response bot data w = (Ok (), counted (HStr tag) w).
Proof.
  rewrite !elem_of_cons, elem_of_nil.
  intros Htag Ht.
  rewrite (count_without_append bot data w w (PStr tag)).
  - reflexivity.
  - apply classify_tag; [done|].
    destruct Htag as [-> | [-> | [-> | [-> | []]]]]; discriminate.
  - destruct Htag as [-> | [-> | [-> | [-> | []]]]]; reflexivity.
  - destruct Htag as [-> | [-> | [-> | [-> | []]]]]; reflexivity.
Qed.

(** C5, as the code has it.  For every lifecycle event the gateway frame
    that carries it is always counted: its kind's count grows by one, no
    other count changes and no call is issued.  The handler always starts
    by issuing the append of the event's row.  If the store accepts the
    row, it is committed, whatever follows; and if the resolver then has no
    configuration for the guild and category, the handler ends there
    without an error and without calling the channel-send primitive.  If
    the store rejects the row, the handler ends with the store's error
    before the resolver is asked, and nothing is committed. *)
Theorem no_subscription_is_a_no_op (bot : Bot) (member : Member) (server : Server)
    (f : flow) (w : World) :
  f ∈ lifecycle_flows bot member server →
  let kind := HStr (flow_kind f) in
  let row := lifecycle_row (flow_kind f) member (flow_server f) in
  let ask := CResolve (flow_server f) (flow_category f) (flow_default f) in
  (∀ data, dict_get "t" data = PStr (flow_kind f) →
     ∃ w', on_socket_response bot data w = (Ok (), w') ∧
       counter_get (events w') kind = S (counter_get (events w) kind) ∧
       (∀ k, k ≠ kind → events w' !! k = events w !! k) ∧
       table w' = table w ∧ journal w' = journal w) ∧
  (∃ rest, journal (flow_handler f w).2 = journal w ++ CLog row :: rest) ∧
  events (flow_handler f w).2 = events w ∧
  (rdblog_accepts bot row = true →
     table (flow_handler f w).2 = table w ++ [row] ∧
     (get_event_message bot (flow_server f) (flow_category f) (flow_default f)
      = Ok None →
      flow_handler f w
      = (Ok (), mkWorld (events w) (table w ++ [row]) (journal w ++ [CLog row; ask])))) ∧
  (rdblog_accepts bot row = false →
     flow_handler f w
     = (Raise StoreError, mkWorld (events w) (table w) (journal w ++ [CLog row]))).
Proof.
  intros Hf kind row ask.
  rewrite (lifecycle_flows_spec bot member server f Hf), lifecycle_run.
  fold row. cbn zeta. unfold resolved, sent, appended. fold ask. split_and!.
  - intros data Ht.
    exists (counted kind w). split_and!; [| | | done..].
    + apply lifecycle_frame_counted; [| done].
      by eapply lifecycle_flows_kind.
    + apply counter_get_increment.
    + intros k Hk. cbn. unfold increment. by rewrite lookup_insert_ne.
  - destruct (rdblog_accepts bot row);
      [ destruct (get_event_message bot _ _ _) as [[[channel event_msg]|]|e];
        [ destruct (str_format bot event_msg _) as [msg|e] | .. ] |];
      cbn; rewrite <- ?app_assoc; eexists; reflexivity.
  - destruct (rdblog_accepts bot row);
      [ destruct (get_event_message bot _ _ _) as [[[channel event_msg]|]|e];
        [ destruct (str_format bot event_msg _) as [msg|e] | .. ] |];
      reflexivity.
  - intros ->. split.
    + destruct (get_event_message bot _ _ _) as [[[channel event_msg]|]|e];
        [ destruct (str_format bot event_msg _) as [msg|e] | .. ];
        reflexivity.
    + intros ->. cbn. by rewrite <- app_assoc.
  - by intros ->.
Qed.

Lemma no_subscription_is_a_no_op_witness :
  let row := lifecycle_row "GUILD_MEMBER_ADD" ada (member_server ada) in
  let ask := CResolve (member_server ada) "joins" "Welcome {member.name}!" in
  on_member_join working_bot ada empty_world
  = (Ok (), mkWorld ∅ [row] [CLog row; ask]) ∧
  on_member_join failing_store_bot ada empty_world
  = (Raise StoreError, mkWorld ∅ [] [CLog row]).
Proof.
  intros row ask. split.
  - refine (proj2 (proj1 (proj2 (proj2 (proj2
      (no_subscription_is_a_no_op working_bot ada (member_server ada)
         {| flow_handler := on_member_join working_bot ada;
            flow_kind := "GUILD_MEMBER_ADD";
            flow_server := member_server ada;
            flow_category := "joins";
            flow_default := "Welcome {member.name}!" |}
         empty_world _)))) _) _).
    + apply list_elem_of_here.
    + reflexivity.
    + reflexivity.
  - refine (proj2 (proj2 (proj2 (proj2
      (no_subscription_is_a_no_op failing_store_bot ada (member_server ada)
         {| flow_handler := on_member_join failing_store_bot ada;
            flow_kind := "GUILD_MEMBER_ADD";
            flow_server := member_server ada;
            flow_category := "joins";
            flow_default := "Welcome {member.name}!" |}
         empty_world _)))) _).
    + apply list_elem_of_here.
    + reflexivity.
Defined.

(** C5 fails on the code: with a store that rejects the append and a
    resolver that has no configuration, a member join ends with the store's
    error and no row is committed, so it is not true that the log append
    always occurs and that a flow without configuration ends as a no-op
    with the row logged. *)
Lemma rejected_append_ends_unsubscribed_join :
  get_event_message failing_store_bot (member_server ada) "joins"
    "Welcome {member.name}!" = Ok None ∧
  on_member_join failing_store_bot ada empty_world
  = (Raise StoreError,
     mkWorld ∅ [] [CLog (lifecycle_row "GUILD_MEMBER_ADD" ada (member_server ada))]) ∧
  ¬ (∀ bot member w,
       get_event_message bot (member_server member) "joins"
         "Welcome {member.name}!" = Ok None →
       ∃ w', on_member_join bot member w = (Ok (), w') ∧
         lifecycle_row "GUILD_MEMBER_ADD" member (member_server member) ∈ table w').
Proof.
  split_and!; [reflexivity.. |]. intros H.
  destruct (H failing_store_bot ada empty_world eq_refl) as (w' & Hrun & _).
  discriminate Hrun.
Qed.

(** ** Templates *)

Lemma get_field_object_absent (bot : Bot) (kwargs : list (string * pyobj))
    (first : string) :
  getattr first kwargs = None → ∃ e, get_field_object bot kwargs first = Raise e.
Proof.
  intros H. unfold get_field_object. rewrite H.
  repeat case_match; eauto.
Qed.

(** A name that starts with an ASCII character other than a digit is no
    number, whatever follows. *)
Lemma get_integer_plain_name (bot : Bot) (name : string) :
  plain_name name = true → get_integer bot name = NotInteger.
Proof.
  destruct name as [|c name]; [done |]. unfold plain_name.
  intros H. apply andb_prop in H as [H _]. apply andb_prop in H as [Hascii Hdigit].
  apply negb_true_iff in Hdigit.
  assert (to_decimal bot (String c EmptyString) = None) as Hc.
  { unfold to_decimal. by rewrite Hascii, Hdigit. }
  unfold get_integer. cbn [characters]. rewrite Hascii. cbn [negb andb].
  destruct (characters name); cbn [get_integer_from]; by rewrite Hc.
Qed.

Lemma plain_name_chars (name : string) :
  plain_name name = true → name_chars name = true.
Proof.
  destruct name; [done |]. unfold plain_name. intros H.
  by apply andb_prop in H as [_ ?].
Qed.

Lemma get_field_object_plain_name (bot : Bot) (kwargs : list (string * pyobj))
    (name : string) :
  plain_name name = true →
  get_field_object bot kwargs name
  = match getattr name kwargs with
    | Some o => Ok o
    | None => Raise (KeyError name)
    end.
Proof.
  intros H. unfold get_field_object. rewrite (get_integer_plain_name bot name H).
  by destruct name.
Qed.

Lemma format_field_absent (bot : Bot) (kwargs : list (string * pyobj))
    (name : string) (conversion : option ascii) (spec : string) :
  getattr (field_name_split name).1 kwargs = None →
  ∃ e, format_field bot kwargs name conversion spec = Raise e.
Proof.
  intros H. unfold format_field.
  destruct (field_name_split name) as [first rest]; cbn in H.
  destruct (get_field_object_absent bot kwargs first H) as [e ->]. eauto.
Qed.

(** A field whose argument is missing makes the rendering fail, there or
    earlier. *)
Lemma build_string_absent (bot : Bot) (kwargs : list (string * pyobj))
    (pieces : list piece) (arg : string) :
  arg ∈ omap piece_argument pieces →
  getattr arg kwargs = None →
  ∃ e, build_string bot kwargs pieces = Raise e.
Proof.
  intros Hin Habs. induction pieces as [|p pieces IH]; [by apply elem_of_nil in Hin |].
  destruct p as [text|name conversion spec|]; cbn in *.
  - destruct (IH Hin) as [e ->]. eauto.
  - apply elem_of_cons in Hin as [-> | Hin].
    + destruct (format_field_absent bot kwargs name conversion spec Habs)
        as [e ->]. eauto.
    + destruct (format_field bot kwargs name conversion spec); [| eauto].
      destruct (IH Hin) as [e ->]. eauto.
  - eauto.
Qed.

Lemma str_format_absent (bot : Bot) (template : string)
    (kwargs : list (string * pyobj)) (arg : string) :
  arg ∈ placeholders template →
  getattr arg kwargs = None →
  ∃ e, str_format bot template kwargs = Raise e.
Proof. apply build_string_absent. Qed.

Lemma append_nil_l (s : string) : EmptyString +:+ s = s.
Proof. reflexivity. Qed.

Lemma append_cons (c : ascii) (s1 s2 : string) :
  String c s1 +:+ s2 = String c (s1 +:+ s2).
Proof. reflexivity. Qed.

Lemma append_empty_r (s : string) : s +:+ EmptyString = s.
Proof.
  induction s as [|a s IH]; [done |]. by rewrite append_cons, IH.
Qed.

Lemma snoc_append (acc : string) (c : ascii) (s : string) :
  snoc acc c +:+ s = acc +:+ String c s.
Proof.
  unfold snoc. induction acc as [|a acc IH]; [done |].
  by rewrite !append_cons, IH.
Qed.

(** Brace-free text is read as literal text. *)
Lemma markup_plain_text (acc pre rest : string) :
  plain_text pre = true →
  markup (InText acc) (pre +:+ rest) = markup (InText (acc +:+ pre)) rest.
Proof.
  revert acc. induction pre as [|c pre IH]; intros acc Hpre.
  - by rewrite append_empty_r.
  - cbn in Hpre. rewrite append_cons. cbn.
    apply andb_prop in Hpre as [Hc Hpre]. apply andb_prop in Hc as [Ho Hc].
    apply negb_true_iff in Ho, Hc. rewrite Ho, Hc. cbn.
    by rewrite IH, snoc_append.
Qed.

Lemma scan_name_char (acc : string) (c : ascii) :
  name_char c = true → scan_name acc c = ([], Some (InName (snoc acc c))).
Proof.
  unfold name_char, scan_name. intros H.
  destruct (Ascii.eqb c "{"); [done |].
  destruct (Ascii.eqb c "}"); [done |].
  destruct (Ascii.eqb c "["); [done |].
  destruct (Ascii.eqb c "]"); [done |].
  destruct (Ascii.eqb c "."); [done |].
  destruct (Ascii.eqb c "!"); [done |].
  by destruct (Ascii.eqb c ":").
Qed.

Lemma name_char_not_open (c : ascii) :
  name_char c = true → Ascii.eqb c "{" = false.
Proof. unfold name_char. by destruct (Ascii.eqb c "{"). Qed.

Lemma name_char_not_accessor (c : ascii) :
  name_char c = true → Ascii.eqb c "." || Ascii.eqb c "[" = false.
Proof.
  unfold name_char. intros H.
  destruct (Ascii.eqb c "{"); [done |].
  destruct (Ascii.eqb c "}"); [done |].
  destruct (Ascii.eqb c "["); [done |].
  destruct (Ascii.eqb c "]"); [done |].
  by destruct (Ascii.eqb c ".").
Qed.

(** Name characters up to a closing brace are read as one field. *)
Lemma markup_name_chars (acc name rest : string) :
  name_chars name = true →
  markup (InName acc) (name +:+ String "}" rest)
  = Field (acc +:+ name) None EmptyString :: markup (InText EmptyString) rest.
Proof.
  revert acc. induction name as [|c name IH]; intros acc Hname.
  - by rewrite append_empty_r.
  - cbn in Hname. apply andb_prop in Hname as [Hc Hname].
    rewrite append_cons. cbn. rewrite (scan_name_char acc c Hc). cbn.
    by rewrite IH, snoc_append.
Qed.

Lemma field_name_split_name_chars (name : string) :
  name_chars name = true → field_name_split name = (name, EmptyString).
Proof.
  induction name as [|c name IH]; intros Hname; cbn in *; [done |].
  apply andb_prop in Hname as [Hc Hname].
  rewrite (name_char_not_accessor c Hc). by rewrite IH.
Qed.

(** A template that spells a missing argument as [{name}] after plain
    text fails with the [KeyError] of that name. *)
Lemma str_format_key_error (bot : Bot) (kwargs : list (string * pyobj))
    (pre arg post : string) :
  plain_text pre = true →
  plain_name arg = true →
  getattr arg kwargs = None →
  str_format bot (pre +:+ String "{" (arg +:+ String "}" post)) kwargs
  = Raise (KeyError arg).
Proof.
  intros Hpre Harg Habs.
  pose proof (plain_name_chars arg Harg) as Hchars.
  unfold str_format. rewrite (markup_plain_text _ pre _ Hpre). cbn.
  destruct arg as [|c arg]; [done |].
  pose proof Hchars as Hchars'. cbn in Hchars'.
  apply andb_prop in Hchars' as [Hc Hrest].
  rewrite append_cons. cbn.
  rewrite (name_char_not_open c Hc), (scan_name_char _ c Hc). cbn.
  rewrite (markup_name_chars _ arg post Hrest).
  rewrite snoc_append, append_nil_l. cbn.
  unfold format_field.
  rewrite (field_name_split_name_chars (String c arg) Hchars).
  by rewrite (get_field_object_plain_name bot kwargs _ Harg), Habs.
Qed.

Lemma getattr_cons (name k : string) (v : pyobj) (attrs : list (string * pyobj)) :
  getattr name ((k, v) :: attrs)
  = if String.eqb k name then Some v else getattr name attrs.
Proof. reflexivity. Qed.

Lemma lifecycle_fields_absent (member : Member) (server : Server) (channel : Channel)
    (arg : string) :
  arg ∉ ["member"; "server"; "channel"] →
  getattr arg (lifecycle_fields member server channel) = None.
Proof.
  rewrite !not_elem_of_cons. intros (Hm & Hs & Hc & _).
  unfold lifecycle_fields. rewrite !getattr_cons.
  rewrite (proj2 (String.eqb_neq "member" arg)) by congruence.
  rewrite (proj2 (String.eqb_neq "server" arg)) by congruence.
  rewrite (proj2 (String.eqb_neq "channel" arg)) by congruence.
  reflexivity.
Qed.

(** A member whose [str()] is [name] is rendered as that name. *)
Lemma str_format_welcome (bot : Bot) (member : Member) (server : Server)
    (channel : Channel) :
  str_format bot "Welcome {member}!" (lifecycle_fields member server channel)
  = Ok ("Welcome " +:+ member_str member +:+ "!").
Proof. reflexivity. Qed.

Lemma run_app (ds1 ds2 : list (Bot * delivery)) (w : World) :
  run (ds1 ++ ds2) w = run ds2 (run ds1 w).
Proof.
  revert w. induction ds1 as [|[bot d] ds1 IH]; intros w; [done |].
  cbn. apply IH.
Qed.

(** A lifecycle delivery is handled by its flow, under any bot. *)
Lemma lifecycle_deliveries_handle (bot bot' : Bot) (member : Member) (server : Server)
    (d : delivery) (f : flow) :
  (d, f) ∈ lifecycle_deliveries bot member server →
  f ∈ lifecycle_flows bot member server ∧
  handle bot' d = lifecycle bot' member f.
Proof.
  unfold lifecycle_deliveries, lifecycle_flows. cbn [zip zip_with].
  rewrite !elem_of_cons, elem_of_nil.
  intros [[= -> ->] | [[= -> ->] | [[= -> ->] | [[= -> ->] | []]]]];
    (split; [set_solver | reflexivity]).
Qed.

(** A dispatch whose template refers to an argument that [format] is not
    given leaves the state a dispatch without subscription leaves. *)
Lemma missing_field_state (bot : Bot) (member : Member) (f : flow) (w : World)
    (channel : Channel) (template arg : string) :
  get_event_message bot (flow_server f) (flow_category f) (flow_default f)
  = Ok (Some (channel, template)) →
  arg ∈ placeholders template →
  arg ∉ ["member"; "server"; "channel"] →
  (lifecycle bot member f w).2 = (lifecycle (unsubscribed bot) member f w).2.
Proof.
  intros Hres Harg Habs. rewrite !lifecycle_run. cbn zeta.
  change (rdblog_accepts (unsubscribed bot)) with (rdblog_accepts bot).
  destruct (rdblog_accepts bot _) eqn:Hacc.
  - rewrite Hres.
    destruct (str_format_absent bot template
                (lifecycle_fields member (flow_server f) channel) arg Harg)
      as [e ->]; [by apply lifecycle_fields_absent |].
    cbn. unfold resolved, appended. cbn. by rewrite Hacc.
  - cbn. unfold appended. cbn. by rewrite Hacc.
Qed.

(** C3.  The template ["Welcome {member}!"] formatted with a member that
    prints as Ada gives exactly ["Welcome Ada!"], and that text is what a
    lifecycle handler hands to the channel-send primitive; formatted
    without a [member] it raises [KeyError].  Whenever a template refers to
    an argument that the supplied fields lack, formatting raises (the
    [KeyError] of that name when the reference is a plain [{name}] after
    plain text), so the handler ends with that error after the log append
    and the resolver call: the channel-send primitive is not called and
    the counter and the table are otherwise untouched.  The error ends
    that one dispatch only: in any run of the cog, the deliveries before
    and after it are handled, and the run ends in the state it would have
    ended in had the guild had no subscription. *)
Theorem missing_template_field (bot : Bot) :
  str_format bot "Welcome {member}!" [("member", str_obj "Ada")] = Ok "Welcome Ada!" ∧
  str_format bot "Welcome {member}!" [] = Raise (KeyError "member") ∧
  (∀ template kwargs arg,
     arg ∈ placeholders template →
     getattr arg kwargs = None →
     ∃ e, str_format bot template kwargs = Raise e) ∧
  (∀ kwargs pre arg post,
     plain_text pre = true →
     plain_name arg = true →
     getattr arg kwargs = None →
     str_format bot (pre +:+ "{" +:+ arg +:+ "}" +:+ post) kwargs
     = Raise (KeyError arg)) ∧
  (∀ member server f w channel template,
     f ∈ lifecycle_flows bot member server →
     let row := lifecycle_row (flow_kind f) member (flow_server f) in
     let ask := CResolve (flow_server f) (flow_category f) (flow_default f) in
     rdblog_accepts bot row = true →
     get_event_message bot (flow_server f) (flow_category f) (flow_default f)
     = Ok (Some (channel, template)) →
     (template = "Welcome {member}!" →
      member_str member = "Ada" →
      flow_handler f w =
        (if send_accepts bot channel "Welcome Ada!" then Ok () else Raise SendError,
         mkWorld (events w) (table w ++ [row])
           (journal w ++ [CLog row; ask; CSend channel "Welcome Ada!"]))) ∧
     (∀ arg,
        arg ∈ placeholders template →
        arg ∉ ["member"; "server"; "channel"] →
        ∃ e, flow_handler f w =
          (Raise e,
           mkWorld (events w) (table w ++ [row]) (journal w ++ [CLog row; ask])))) ∧
  (∀ member server d f channel template arg ds1 ds2 w,
     (d, f) ∈ lifecycle_deliveries bot member server →
     get_event_message bot (flow_server f) (flow_category f) (flow_default f)
     = Ok (Some (channel, template)) →
     arg ∈ placeholders template →
     arg ∉ ["member"; "server"; "channel"] →
     run (ds1 ++ (bot, d) :: ds2) w
     = run (ds1 ++ (unsubscribed bot, d) :: ds2) w).
Proof.
  split; [reflexivity |]. split; [reflexivity |].
  split; [intros; by eapply str_format_absent |].
  split; [intros; by apply str_format_key_error |].
  split.
  - intros member server f w channel template Hf row ask Hacc Hres.
    rewrite (lifecycle_flows_spec bot member server f Hf), lifecycle_run.
    fold row. cbn zeta. rewrite Hacc, Hres.
    unfold sent, resolved, appended. fold ask. rewrite Hacc. split.
    + intros -> Hstr. rewrite str_format_welcome, Hstr.
      cbn [events table journal]. by rewrite <- !app_assoc.
    + intros arg Harg Habs.
      destruct (str_format_absent bot template
                  (lifecycle_fields member (flow_server f) channel) arg Harg)
        as [e ->]; [by apply lifecycle_fields_absent |].
      exists e. cbn [events table journal]. by rewrite <- !app_assoc.
  - intros member server d f channel template arg ds1 ds2 w Hd Hres Harg Habs.
    rewrite !run_app. cbn [run].
    destruct (lifecycle_deliveries_handle bot bot member server d f Hd) as [_ ->].
    destruct (lifecycle_deliveries_handle bot (unsubscribed bot) member server d f Hd)
      as [_ ->].
    by rewrite (missing_field_state bot member f _ channel template arg).
Qed.

Lemma missing_template_field_witness :
  let bot := subscribed_bot "Hello {user}, welcome to {server.name}" in
  let row := lifecycle_row "GUILD_MEMBER_ADD" ada (member_server ada) in
  let ask := CResolve (member_server ada) "joins" "Welcome {member.name}!" in
  let typing := (working_bot, Typing lobby ada) in
  str_format bot ("Hello " +:+ "{" +:+ "user" +:+ "}" +:+ ", welcome")
    (lifecycle_fields ada (member_server ada) lobby)
  = Raise (KeyError "user") ∧
  (∃ e, on_member_join bot ada empty_world
        = (Raise e, mkWorld ∅ [row] [CLog row; ask])) ∧
  run ([typing] ++ (bot, MemberJoin ada) :: [typing]) empty_world
  = run ([typing] ++ (unsubscribed bot, MemberJoin ada) :: [typing]) empty_world.
Proof.
  intros bot row ask typing.
  destruct (missing_template_field bot) as (_ & _ & _ & Hkey & Hflow & Hrun).
  pose (join := {| flow_handler := on_member_join bot ada;
                   flow_kind := "GUILD_MEMBER_ADD";
                   flow_server := member_server ada;
                   flow_category := "joins";
                   flow_default := "Welcome {member.name}!" |}).
  assert ("user" ∈ placeholders "Hello {user}, welcome to {server.name}") as Huser.
  { vm_compute. apply list_elem_of_here. }
  assert ("user" ∉ ["member"; "server"; "channel"]) as Hnew.
  { rewrite !not_elem_of_cons. repeat split; try discriminate. apply not_elem_of_nil. }
  split_and!.
  - apply Hkey; reflexivity.
  - refine (proj2 (Hflow ada (member_server ada) join empty_world lobby
      "Hello {user}, welcome to {server.name}" _ _ _) "user" Huser Hnew).
    + apply list_elem_of_here.
    + reflexivity.
    + reflexivity.
  - refine (Hrun ada (member_server ada) (MemberJoin ada) join lobby
      "Hello {user}, welcome to {server.name}" "user" [typing] [typing] empty_world
      _ _ Huser Hnew).
    + apply list_elem_of_here.
    + reflexivity.
Defined.

(** ** The frequency table of the log *)

Section GroupCount.

Implicit Types (groups : list (pyval * nat)) (rows : list record) (k key : pyval).

Lemma tally_fst key groups :
  (tally key groups).*1 =
    if decide (key ∈ groups.*1) then groups.*1 else groups.*1 ++ [key].
Proof.
  induction groups as [|[k n] groups IH]; cbn.
  - by rewrite decide_False by apply not_elem_of_nil.
  - destruct (decide (k = key)) as [->|Hne]; cbn.
    + by rewrite decide_True by apply list_elem_of_here.
    + rewrite IH. destruct (decide (key ∈ groups.*1)) as [Hin|Hnin].
      * by rewrite decide_True by by apply list_elem_of_further.
      * rewrite decide_False; [done |].
        rewrite elem_of_cons. intros [? | ?]; [congruence | done].
Qed.

Lemma tally_NoDup key groups :
  NoDup groups.*1 → NoDup (tally key groups).*1.
Proof.
  intros Hnd. rewrite tally_fst. case_decide; [done |].
  apply NoDup_app. split_and!; [done | | apply NoDup_singleton].
  intros x Hx ->%list_elem_of_singleton. done.
Qed.

Lemma not_elem_of_fst groups k :
  k ∉ groups.*1 ↔ ∀ n, (k, n) ∉ groups.
Proof.
  rewrite list_elem_of_fmap. split.
  - intros H n Hin. apply H. by exists (k, n).
  - intros H [[k' n] [-> Hin]]. by apply (H n).
Qed.

(** The entries of a table after one more row of kind [key]. *)
Lemma elem_of_tally key groups k n :
  NoDup groups.*1 →
  (k, n) ∈ tally key groups ↔
    ((k ≠ key ∧ (k, n) ∈ groups) ∨
     (k = key ∧ ((∃ m, (key, m) ∈ groups ∧ n = S m) ∨
                 ((key ∉ groups.*1) ∧ n = 1)))).
Proof.
  induction groups as [|[k' n'] groups IH]; intros Hnd.
  - cbn. rewrite list_elem_of_singleton.
    setoid_rewrite elem_of_nil. naive_solver.
  - cbn in Hnd. apply NoDup_cons in Hnd as [Hk' Hnd]. specialize (IH Hnd).
    rewrite not_elem_of_fst in Hk'.
    cbn [tally]. destruct (decide (k' = key)) as [->|Hne].
    + rewrite not_elem_of_fst.
      setoid_rewrite elem_of_cons. naive_solver.
    + rewrite elem_of_cons, IH, !not_elem_of_fst.
      setoid_rewrite elem_of_cons. naive_solver.
Qed.

Lemma group_count_snoc field rows row :
  group_count field (rows ++ [row])
  = tally (dict_get field row) (group_count field rows).
Proof. unfold group_count. by rewrite foldl_app. Qed.

Lemma occurrences_snoc k rows row :
  occurrences k (rows ++ [row])
  = (occurrences k rows + if decide (dict_get "t" row = k) then 1 else 0)%nat.
Proof.
  unfold occurrences. rewrite filter_app, length_app. f_equal.
  rewrite filter_cons, filter_nil. by case_decide.
Qed.

(** Grouping and counting: one entry per kind that occurs, holding the
    number of its rows. *)
Lemma group_count_spec rows :
  NoDup (group_count "t" rows).*1 ∧
  ∀ k n, (k, n) ∈ group_count "t" rows ↔ n = occurrences k rows ∧ (0 < n)%nat.
Proof.
  induction rows as [|row rows [IHnd IH]] using rev_ind.
  - split; [apply NoDup_nil_2 |]. intros k n. cbn.
    rewrite elem_of_nil. unfold occurrences. cbn. lia.
  - rewrite group_count_snoc. split; [by apply tally_NoDup |].
    intros k n. rewrite (elem_of_tally _ _ _ _ IHnd), occurrences_snoc.
    set (key := dict_get "t" row).
    assert (Hnin : key ∉ (group_count "t" rows).*1 ↔ occurrences key rows = 0%nat).
    { split.
      - intros Hnin. destruct (occurrences key rows) as [|m] eqn:Hocc; [done |].
        exfalso. apply Hnin. apply list_elem_of_fmap.
        exists (key, S m). split; [done |]. apply IH. lia.
      - intros Hocc [[k' n'] [-> Hin]]%list_elem_of_fmap.
        apply IH in Hin. cbn in *. lia. }
    split.
    + intros [[Hk Hin] | [-> [(m & Hin & ->) | [Hnin' ->]]]].
      * apply IH in Hin. rewrite decide_False by done. lia.
      * apply IH in Hin. rewrite decide_True by done. lia.
      * apply Hnin in Hnin'. rewrite decide_True by done. lia.
    + intros [-> Hpos]. destruct (decide (key = k)) as [<-|Hne].
      * right. split; [done |].
        destruct (occurrences key rows) as [|m] eqn:Hocc.
        -- right. split; [by apply Hnin | done].
        -- left. exists (S m). split; [apply IH; lia | lia].
      * left. split; [done |]. apply IH. lia.
Qed.

Lemma insert_by_count_perm x l : insert_by_count x l ≡ₚ x :: l.
Proof.
  induction l as [|y l IH]; cbn; [done |].
  case_match; [done |]. by rewrite IH, Permutation_swap.
Qed.

Lemma sorted_by_count_perm l : sorted_by_count l ≡ₚ l.
Proof.
  induction l as [|x l IH]; cbn; [done |].
  by rewrite insert_by_count_perm, IH.
Qed.

Lemma insert_by_count_sorted x l :
  StronglySorted (λ a b, a.2 ≤ b.2)%nat l →
  StronglySorted (λ a b, a.2 ≤ b.2)%nat (insert_by_count x l).
Proof.
  induction l as [|y l IH]; intros Hs; cbn.
  - repeat constructor.
  - apply StronglySorted_cons in Hs as [Hy Hs].
    destruct (Nat.leb_spec x.2 y.2) as [Hle|Hlt].
    + apply StronglySorted_cons. split.
      * constructor; [done |].
        eapply Forall_impl; [exact Hy |]. cbn. intros z Hz. lia.
      * by apply StronglySorted_cons.
    + apply StronglySorted_cons. split; [| by apply IH].
      rewrite insert_by_count_perm. constructor; [lia | done].
Qed.

Lemma sorted_by_count_sorted l :
  StronglySorted (λ a b, a.2 ≤ b.2)%nat (sorted_by_count l).
Proof.
  induction l as [|x l IH]; cbn; [constructor |].
  by apply insert_by_count_sorted.
Qed.

Lemma StronglySorted_reverse {A} (R : relation A) (l : list A) :
  StronglySorted R l → StronglySorted (flip R) (reverse l).
Proof.
  induction 1 as [|x l Hs IH Hx]; [constructor |].
  rewrite reverse_cons. apply StronglySorted_app. split_and!.
  - intros y z Hy ->%list_elem_of_singleton.
    rewrite elem_of_reverse in Hy. rewrite Forall_forall in Hx.
    unfold flip. by apply Hx.
  - done.
  - repeat constructor.
Qed.

End GroupCount.

(** C6.  The [all] command groups the rows of the log by kind, counts
    each group, and presents the entries by descending count: a log with
    kinds A, A, B, C, C, C gives C:3, A:2, B:1; an empty log gives an empty
    table; and for every log the table has exactly one entry per kind that
    occurs, holding the number of rows of that kind, each entry's count
    being at least the count of every entry after it. *)
Theorem all_rows_grouped_counted_sorted :
  all_rows [row_of "A" "1"; row_of "A" "2"; row_of "B" "1";
            row_of "C" "3"; row_of "C" "1"; row_of "C" "2"]
  = [(PStr "C", 3); (PStr "A", 2); (PStr "B", 1)] ∧
  all_rows [] = [] ∧
  ∀ rows,
    StronglySorted (λ a b, b.2 ≤ a.2)%nat (all_rows rows) ∧
    NoDup (all_rows rows).*1 ∧
    ∀ k n, (k, n) ∈ all_rows rows ↔ n = occurrences k rows ∧ (0 < n)%nat.
Proof.
  split; [reflexivity |]. split; [reflexivity |].
  intros rows. unfold all_rows. cbn zeta.
  destruct (group_count_spec rows) as [Hnd Hspec]. split_and!.
  - apply (StronglySorted_reverse (λ a b, a.2 ≤ b.2)%nat), sorted_by_count_sorted.
  - by rewrite reverse_Permutation, sorted_by_count_perm.
  - intros k n. by rewrite reverse_Permutation, sorted_by_count_perm.
Qed.

(** * Further properties of the cog *)

(** ** Classification, for every frame *)

Lemma unknown_events_names (n : Z) (name : string) :
  unknown_events !! n = Some name →
  name ∈ ["HEARTBEAT_ACK"; "READY"; "INVALIDATE_SESSION"; "RECONNECT"].
Proof.
  unfold unknown_events. rewrite !lookup_insert, lookup_empty.
  repeat case_decide; intros [= <-]; set_solver.
Qed.

Lemma unknown_events_get_cases (op : pyval) :
  match unknown_events_get op with
  | Ok event =>
      event = PNone ∨
      ∃ name, event = PStr name ∧
        name ∈ ["HEARTBEAT_ACK"; "READY"; "INVALIDATE_SESSION"; "RECONNECT"]
  | Raise e => e = TypeError ∧ hash_key op = None
  end.
Proof.
  unfold unknown_events_get. destruct (hash_key op) as [[|n|s]|]; auto.
  destruct (unknown_events !! n) as [name|] eqn:Hn; auto.
  right. exists name. split; [done |]. by eapply unknown_events_names.
Qed.

Lemma classify_cases (data : pydict) (w : World) :
  (truthy (dict_get "t" data) = true ∧
   classify data w = (Ok (dict_get "t" data), w)) ∨
  (truthy (dict_get "t" data) = false ∧
   ((hash_key (dict_get "op" data) = None ∧
     classify data w = (Raise TypeError, w)) ∨
    classify data w = (Ok PNone, warned PNone data w) ∨
    ∃ name,
      name ∈ ["HEARTBEAT_ACK"; "READY"; "INVALIDATE_SESSION"; "RECONNECT"] ∧
      classify data w = (Ok (PStr name), w))).
Proof.
  unfold classify. destruct (truthy (dict_get "t" data)) eqn:Ht; cbn [negb].
  - by left.
  - right. split; [done |].
    pose proof (unknown_events_get_cases (dict_get "op" data)) as H.
    destruct (unknown_events_get (dict_get "op" data)) as [event|e].
    + rewrite bind_lift_ok. destruct H as [-> | (name & -> & Hname)].
      * right. left. reflexivity.
      * right. right. exists name. split; [done |].
        rewrite !elem_of_cons, elem_of_nil in Hname.
        destruct Hname as [-> | [-> | [-> | [-> | []]]]]; reflexivity.
    + destruct H as [-> Hop]. left. by rewrite bind_lift_raise.
Qed.

(** X1.  The kind of a frame is never an empty string, a zero or another
    falsy value but [None]: classification returns either a truthy kind,
    leaving everything as it was, or [None] after logging a warning; and it
    fails only with [TypeError], for an unhashable op-code under a falsy
    tag. *)
Theorem classify_kind_truthy_or_none (data : pydict) (w : World) :
  match classify data w with
  | (Ok event, w') =>
      (truthy event = true ∧ w' = w) ∨
      (event = PNone ∧ w' = warned PNone data w ∧
       truthy (dict_get "t" data) = false)
  | (Raise e, w') =>
      e = TypeError ∧ w' = w ∧
      truthy (dict_get "t" data) = false ∧
      hash_key (dict_get "op" data) = None
  end.
Proof.
  destruct (classify_cases data w)
    as [[Ht ->] | [Ht [[Hop ->] | [-> | (name & Hname & ->)]]]]; auto.
  left. split; [| done].
  rewrite !elem_of_cons, elem_of_nil in Hname.
  destruct Hname as [-> | [-> | [-> | [-> | []]]]]; reflexivity.
Qed.

(** ** Every way a frame can be handled *)

(** The PRESENCE_UPDATE branch: the payload is unusable and nothing is
    done, or the row built from it is handed to the store. *)
Lemma presence_branch_cases (bot : Bot) (data : pydict) (w : World) :
  let branch : M unit :=
    d ← lift (subscript data "d");
    server_id ← lift (method_get d "guild_id");
    user ← lift (method_get d "user");
    member_id ← lift (method_get user "id");
    game ← lift (method_get d "game");
    rdblog_log bot
      [("t", PStr "PRESENCE_UPDATE"); ("server_id", server_id);
       ("member_id", member_id); ("game", game)] in
  (∃ e, e ∈ [KeyError "d"; AttributeError] ∧ branch w = (Raise e, w)) ∨
  (∃ row, row_kind row = Some "PRESENCE_UPDATE" ∧ branch w = rdblog_log bot row w).
Proof.
  intros branch. unfold branch, subscript.
  destruct (dict_item "d" data) as [d|]; run_M;
    [| left; exists (KeyError "d"); split; [set_solver | done]].
  destruct (method_get d "guild_id") as [sid|e] eqn:Hsid; run_M.
  2: { left. exists AttributeError. split; [set_solver |].
       destruct d; cbn in Hsid; congruence. }
  destruct (method_get d "user") as [user|e] eqn:Huser; run_M.
  2: { destruct d; cbn in Hsid, Huser; congruence. }
  destruct (method_get user "id") as [mid|e] eqn:Hmid; run_M.
  2: { left. exists AttributeError. split; [set_solver |].
       destruct user; cbn in Hmid; congruence. }
  destruct (method_get d "game") as [game|e] eqn:Hgame; run_M.
  2: { destruct d; cbn in Hsid, Hgame; congruence. }
  right. eexists. split; [| reflexivity]. reflexivity.
Qed.

Lemma count_event_str (name : string) (w : World) :
  count_event (PStr name) w = (Ok (), counted (HStr name) w).
Proof. reflexivity. Qed.

Lemma frame_after_log (bot : Bot) (row : record) (name : string) (w : World) :
  (rdblog_log bot row;; count_event (PStr name)) w =
    if rdblog_accepts bot row
    then (Ok (), counted (HStr name) (appended bot row w))
    else (Raise StoreError, appended bot row w).
Proof.
  rewrite bind_run, rdblog_log_run. by destruct (rdblog_accepts bot row).
Qed.

Lemma hash_key_not_str (v : pyval) (lit : string) (k : hkey) :
  eq_str v lit = false → hash_key v = Some k → k ≠ HStr lit.
Proof.
  destruct v; cbn; intros Hne [= <-]; try discriminate; try by destruct b.
  intros [= ->]. by rewrite String.eqb_refl in Hne.
Qed.

(** Whatever the frame, its handling ends in one of the five ways. *)
Lemma on_socket_response_outcome (bot : Bot) (data : pydict) (w : World) :
  frame_outcome bot data w (on_socket_response bot data w).
Proof.
  destruct (classify_cases data w)
    as [[Ht Hc] | [Ht [[Hop Hc] | [Hc | (name & Hname & Hc)]]]].
  - (* a truthy tag *)
    rewrite (on_socket_response_run bot data w w _ Hc).
    destruct (eq_str (dict_get "t" data) "PRESENCE_UPDATE") eqn:Hp;
      [| destruct (eq_str (dict_get "t" data) "HEATBEAT_ACK") eqn:Hh].
    + apply eq_str_true in Hp. rewrite Hp.
      destruct (presence_branch_cases bot data w)
        as [(e & He & Hb) | (row & Hk & Hb)]; cbn zeta in Hb.
      * rewrite bind_run, Hb. apply FrameRaises. set_solver.
      * rewrite bind_run, Hb, <- bind_run, frame_after_log.
        destruct (rdblog_accepts bot row) eqn:Hacc.
        -- apply FrameLogged; [by left | done].
        -- by apply (FrameRejected _ _ _ _ (HStr "PRESENCE_UPDATE")); [left |].
    + apply eq_str_true in Hh. rewrite Hh, frame_after_log.
      destruct (rdblog_accepts bot _) eqn:Hacc.
      * apply FrameLogged; [by right | done].
      * by apply (FrameRejected _ _ _ _ (HStr "HEATBEAT_ACK")); [right |].
    + run_M. unfold count_event.
      destruct (hash_key (dict_get "t" data)) as [k|] eqn:Hk.
      * apply FrameCounted; by eapply hash_key_not_str.
      * apply FrameRaises. set_solver.
  - unfold on_socket_response. rewrite bind_run, Hc.
    apply FrameRaises. set_solver.
  - unfold on_socket_response. rewrite bind_run, Hc.
    by apply FrameUnknown.
  - rewrite (on_socket_response_run bot data w w _ Hc).
    rewrite !elem_of_cons, elem_of_nil in Hname.
    destruct Hname as [-> | [-> | [-> | [-> | []]]]]; by apply FrameCounted.
Qed.

Lemma appended_rejected (bot : Bot) (row : record) (w : World) :
  rdblog_accepts bot row = false →
  appended bot row w = mkWorld (events w) (table w) (journal w ++ [CLog row]).
Proof. intros H. unfold appended. by rewrite H. Qed.

Lemma appended_accepted (bot : Bot) (row : record) (w : World) :
  rdblog_accepts bot row = true →
  appended bot row w
  = mkWorld (events w) (table w ++ [row]) (journal w ++ [CLog row]).
Proof. intros H. unfold appended. by rewrite H. Qed.

(** X2.  Handling a frame is all or nothing.  When [on_socket_response] raises,
    it raises one of [TypeError], [KeyError 'd'], [AttributeError] and the
    store's error, and neither the counter nor the table has changed; when
    it completes, at most one row was committed. *)
Theorem failed_frame_changes_nothing (bot : Bot) (data : pydict) (w : World) :
  match on_socket_response bot data w with
  | (Raise e, w') =>
      e ∈ [TypeError; KeyError "d"; AttributeError; StoreError] ∧
      events w' = events w ∧ table w' = table w
  | (Ok _, w') =>
      table w' = table w ∨ ∃ row, table w' = table w ++ [row]
  end.
Proof.
  destruct (on_socket_response_outcome bot data w)
    as [e He | Ht | k Hp Hh | row k Hrow Hacc | row k Hrow Hacc].
  - split; [set_solver | done].
  - by left.
  - by left.
  - right. exists row. by rewrite (appended_accepted bot row w Hacc).
  - rewrite (appended_rejected bot row w Hacc). split; [set_solver | done].
Qed.

(** X3.  A frame makes [on_socket_response] issue at most one call: a warning
    for an unknown kind, or the append of a PRESENCE_UPDATE or HEARTBEAT_ACK
    row.  It never asks the resolver and never sends a message. *)
Theorem frame_issues_at_most_one_call (bot : Bot) (data : pydict) (w : World) :
  ∃ calls,
    journal (on_socket_response bot data w).2 = journal w ++ calls ∧
    (calls = [] ∨
     calls = [CWarn PNone data] ∨
     ∃ row, calls = [CLog row] ∧
       (row_kind row = Some "PRESENCE_UPDATE" ∨
        row_kind row = Some "HEARTBEAT_ACK")).
Proof.
  destruct (on_socket_response_outcome bot data w)
    as [e He | Ht | k Hp Hh | row k Hrow Hacc | row k Hrow Hacc]; cbn.
  - exists []. by rewrite app_nil_r; auto.
  - exists [CWarn PNone data]. auto.
  - exists []. by rewrite app_nil_r; auto.
  - exists [CLog row]. split; [done |]. right. right. exists row.
    split; [done |]. destruct Hrow as [(_ & ? & _) | (_ & -> & _)]; auto.
  - exists [CLog row]. split; [done |]. right. right. exists row.
    split; [done |]. destruct Hrow as [(_ & ? & _) | (_ & -> & _)]; auto.
Qed.

(** X4.  The heartbeat row, with the connection's sequence number, is appended
    for exactly the frames whose type tag is the string HEATBEAT_ACK. *)
Theorem heartbeat_row_iff_heatbeat_tag (bot : Bot) (data : pydict) (w : World) :
  journal (on_socket_response bot data w).2
  = journal w ++ [CLog [("t", PStr "HEARTBEAT_ACK"); ("seq", sequence bot)]]
  ↔ dict_get "t" data = PStr "HEATBEAT_ACK".
Proof.
  split.
  - destruct (on_socket_response_outcome bot data w)
      as [e He | Ht | k Hp Hh | row k Hrow Hacc | row k Hrow Hacc]; cbn.
    + intros H. by apply snoc_not_self in H.
    + intros [_ [=]]%app_inj_tail.
    + intros H. by apply snoc_not_self in H.
    + intros [_ [= ->]]%app_inj_tail.
      by destruct Hrow as [(_ & [=] & _) | (? & _)].
    + intros [_ [= ->]]%app_inj_tail.
      by destruct Hrow as [(_ & [=] & _) | (? & _)].
  - intros Ht.
    rewrite (on_socket_response_run bot data w w (PStr "HEATBEAT_ACK")).
    + cbn [eq_str]. change ("HEATBEAT_ACK" =? "PRESENCE_UPDATE") with false.
      rewrite String.eqb_refl, frame_after_log.
      by destruct (rdblog_accepts bot _).
    + by apply classify_tag.
Qed.

(** ** The payload of a PRESENCE_UPDATE frame *)

Lemma presence_frame_run (bot : Bot) (data : pydict) (w : World) :
  dict_get "t" data = PStr "PRESENCE_UPDATE" →
  on_socket_response bot data w =
    ((d ← lift (subscript data "d");
      server_id ← lift (method_get d "guild_id");
      user ← lift (method_get d "user");
      member_id ← lift (method_get user "id");
      game ← lift (method_get d "game");
      rdblog_log bot
        [("t", PStr "PRESENCE_UPDATE"); ("server_id", server_id);
         ("member_id", member_id); ("game", game)]);;
     count_event (PStr "PRESENCE_UPDATE")) w.
Proof.
  intros Ht.
  by rewrite (on_socket_response_run bot data w w (PStr "PRESENCE_UPDATE"))
    by by apply classify_tag.
Qed.

(** X5.  A PRESENCE_UPDATE frame whose payload is a dict with a dict under
    ["user"] has one row appended: the guild id, the user's id and the game
    as the payload gives them, [None] standing for each one that is
    missing.  The frame is counted if the store accepts the row. *)
Theorem presence_row_from_payload (bot : Bot) (data d u : pydict) (w : World) :
  dict_get "t" data = PStr "PRESENCE_UPDATE" →
  dict_item "d" data = Some (PDict d) →
  dict_get "user" d = PDict u →
  let row :=
    [("t", PStr "PRESENCE_UPDATE"); ("server_id", dict_get "guild_id" d);
     ("member_id", dict_get "id" u); ("game", dict_get "game" d)] in
  on_socket_response bot data w =
    if rdblog_accepts bot row
    then (Ok (), counted (HStr "PRESENCE_UPDATE") (appended bot row w))
    else (Raise StoreError, appended bot row w).
Proof.
  intros Ht Hd Hu row. rewrite (presence_frame_run bot data w Ht).
  rewrite <- (frame_after_log bot row "PRESENCE_UPDATE" w).
  rewrite !(bind_run _ _ w). f_equal.
  unfold subscript. rewrite Hd. run_M. rewrite Hu. reflexivity.
Qed.

Lemma presence_row_from_payload_witness :
  on_socket_response working_bot
    [("t", PStr "PRESENCE_UPDATE"); ("s", PInt 8); ("op", PInt 0);
     ("d", PDict [("user", PDict [("username", PStr "ada")]);
                  ("status", PStr "idle")])]
    empty_world
  = (Ok (),
     mkWorld {[ HStr "PRESENCE_UPDATE" := 1 ]}
       [[("t", PStr "PRESENCE_UPDATE"); ("server_id", PNone);
         ("member_id", PNone); ("game", PNone)]]
       [CLog [("t", PStr "PRESENCE_UPDATE"); ("server_id", PNone);
              ("member_id", PNone); ("game", PNone)]]).
Proof.
  apply (presence_row_from_payload working_bot _
           [("user", PDict [("username", PStr "ada")]); ("status", PStr "idle")]
           [("username", PStr "ada")] empty_world);
    reflexivity.
Defined.

(** X6.  A PRESENCE_UPDATE frame is dropped with an exception, before anything
    is logged or counted, when it has no ["d"] ([KeyError]), when its
    payload is not a dict, or when the payload's ["user"] is not a dict
    ([AttributeError]). *)
Theorem presence_bad_payload_raises (bot : Bot) (data : pydict) (w : World) :
  dict_get "t" data = PStr "PRESENCE_UPDATE" →
  (dict_item "d" data = None →
   on_socket_response bot data w = (Raise (KeyError "d"), w)) ∧
  (∀ v, dict_item "d" data = Some v → (∀ d, v ≠ PDict d) →
   on_socket_response bot data w = (Raise AttributeError, w)) ∧
  (∀ d, dict_item "d" data = Some (PDict d) → (∀ u, dict_get "user" d ≠ PDict u) →
   on_socket_response bot data w = (Raise AttributeError, w)).
Proof.
  intros Ht. rewrite (presence_frame_run bot data w Ht). unfold subscript.
  split_and!.
  - intros ->. reflexivity.
  - intros v -> Hv. run_M. destruct v; try reflexivity. by destruct (Hv d).
  - intros d -> Hu. run_M.
    destruct (dict_get "user" d) as [| | | | |u]; try reflexivity.
    by destruct (Hu u).
Qed.

Lemma presence_bad_payload_raises_witness :
  let no_payload := [("t", PStr "PRESENCE_UPDATE"); ("s", PInt 9); ("op", PInt 0)] in
  let null_payload := [("t", PStr "PRESENCE_UPDATE"); ("op", PInt 0); ("d", PNone)] in
  let user_id_only :=
    [("t", PStr "PRESENCE_UPDATE"); ("op", PInt 0);
     ("d", PDict [("user", PStr "80351110224678912")])] in
  on_socket_response working_bot no_payload empty_world
  = (Raise (KeyError "d"), empty_world) ∧
  on_socket_response working_bot null_payload empty_world
  = (Raise AttributeError, empty_world) ∧
  on_socket_response working_bot user_id_only empty_world
  = (Raise AttributeError, empty_world).
Proof.
  intros no_payload null_payload user_id_only. split_and!.
  - apply (presence_bad_payload_raises working_bot no_payload); reflexivity.
  - apply (proj1 (proj2 (presence_bad_payload_raises working_bot null_payload
                           empty_world eq_refl)) PNone);
      [reflexivity | discriminate].
  - apply (proj2 (proj2 (presence_bad_payload_raises working_bot user_id_only
                           empty_world eq_refl))
             [("user", PStr "80351110224678912")]);
      [reflexivity | discriminate].
Defined.

(** ** Counting frames, and nothing else *)

Lemma counter_total_insert (k : hkey) (n : nat) (c : gmap hkey nat) :
  c !! k = None → counter_total (<[k:=n]> c) = (n + counter_total c)%nat.
Proof.
  intros Hk. unfold counter_total.
  rewrite map_fold_insert_L; [done | intros; lia | done].
Qed.

Lemma counter_total_delete (k : hkey) (n : nat) (c : gmap hkey nat) :
  c !! k = Some n → counter_total c = (n + counter_total (delete k c))%nat.
Proof.
  intros Hk. unfold counter_total.
  rewrite (map_fold_delete_L _ _ k n c); [done | intros; lia | done].
Qed.

Lemma counter_total_increment (k : hkey) (c : gmap hkey nat) :
  counter_total (increment k c) = S (counter_total c).
Proof.
  unfold increment, counter_get. rewrite <- insert_delete_eq.
  rewrite counter_total_insert by apply lookup_delete_eq.
  destruct (c !! k) as [n|] eqn:Hk; cbn.
  - rewrite (counter_total_delete k n c Hk). lia.
  - by rewrite delete_id.
Qed.

Lemma handle_total (bot : Bot) (d : delivery) (w : World) :
  counter_total (events (handle bot d w).2)
  = (match d, handle bot d w with
     | SocketResponse _, (Ok _, _) => 1
     | _, _ => 0
     end + counter_total (events w))%nat.
Proof.
  destruct d as [data| | | | | | | |];
    [| rewrite keeps_events_handle; [done | by intros ?] .. ].
  cbn [handle]. pose proof (on_socket_response_events bot data w) as H.
  destruct (on_socket_response bot data w) as [[[]|e] w']; cbn.
  - destruct H as (event & w1 & k & _ & _ & ->).
    apply counter_total_increment.
  - by rewrite H.
Qed.

(** X7.  Every frame handled to completion is counted exactly once, and
    nothing else is counted: over any run, the sum of all counts grows by
    the number of gateway frames whose handling completed. *)
Theorem counter_total_counts_completed_frames (ds : list (Bot * delivery)) (w : World) :
  counter_total (events (run ds w))
  = (counter_total (events w) + frames_completed ds w)%nat.
Proof.
  revert w. induction ds as [|[bot d] ds IH]; intros w; cbn [run frames_completed].
  - lia.
  - rewrite IH, handle_total. lia.
Qed.

(** X8.  The message and lifecycle handlers never touch the counter: a run
    without gateway frames leaves every count as it was. *)
Theorem only_frames_are_counted (ds : list (Bot * delivery)) (w : World) :
  Forall (λ bd, is_frame bd.2 = false) ds →
  events (run ds w) = events w.
Proof.
  revert w. induction ds as [|[bot d] ds IH]; intros w Hds; [done |].
  apply Forall_cons in Hds as [Hd Hds]. cbn [run].
  rewrite (IH _ Hds). apply keeps_events_handle.
  intros data ->. discriminate Hd.
Qed.

Lemma only_frames_are_counted_witness :
  events (run [(working_bot, MemberJoin ada);
               (failing_store_bot, Typing lobby ada);
               (subscribed_bot "Hi {member.name}", MemberRemove ada)]
            counted_world)
  = events counted_world.
Proof.
  apply only_frames_are_counted. repeat constructor.
Defined.

(** ** The log only grows *)

Section Effects.

Context {P : record → Prop} {Q : call → Prop}.

Lemma effects_pure {A} (r : result A) : effects P Q (lift r).
Proof. intros w. exists [], []. by rewrite !app_nil_r. Qed.

Lemma effects_ret {A} (a : A) : effects P Q (mret a : M A).
Proof. intros w. exists [], []. by rewrite !app_nil_r. Qed.

Lemma effects_raise {A} (e : exn) : effects P Q (raise e : M A).
Proof. intros w. exists [], []. by rewrite !app_nil_r. Qed.

Lemma effects_count_event (event : pyval) : effects P Q (count_event event).
Proof.
  intros w. exists [], []. unfold count_event.
  destruct (hash_key event); by rewrite !app_nil_r.
Qed.

Lemma effects_issue (c : call) : Q c → effects P Q (issue c).
Proof.
  intros Hc w. exists [], [c]. rewrite app_nil_r. split_and!; [done.. |].
  by constructor.
Qed.

Lemma effects_commit (row : record) : P row → effects P Q (commit row).
Proof.
  intros Hrow w. exists [row], []. rewrite app_nil_r. split_and!; [done.. | |done].
  by constructor.
Qed.

Lemma effects_bind {A B} (m : M A) (f : A → M B) :
  effects P Q m → (∀ a, effects P Q (f a)) → effects P Q (m ≫= f).
Proof.
  intros Hm Hf w. rewrite bind_run.
  destruct (Hm w) as (rows & calls & Ht & Hj & Hrows & Hcalls).
  destruct (m w) as [[a|e] w1]; cbn in *; [| by exists rows, calls].
  destruct (Hf a w1) as (rows' & calls' & Ht' & Hj' & Hrows' & Hcalls').
  exists (rows ++ rows'), (calls ++ calls').
  rewrite Ht', Hj', Ht, Hj, !app_assoc.
  split_and!; [done | done | by apply Forall_app | by apply Forall_app].
Qed.

End Effects.

Lemma effects_impl {A} (P P' : record → Prop) (Q Q' : call → Prop) (m : M A) :
  (∀ row, P row → P' row) → (∀ c, Q c → Q' c) →
  effects P Q m → effects P' Q' m.
Proof.
  intros HP HQ Hm w. destruct (Hm w) as (rows & calls & Ht & Hj & Hrows & Hcalls).
  exists rows, calls. split_and!; [done | done | |]; by eapply Forall_impl.
Qed.

Ltac known_kind :=
  eexists; split; [reflexivity |];
  unfold known_kinds, handler_kinds;
  repeat first [ apply list_elem_of_here | apply list_elem_of_further ].

Section CogEffects.

Context (kinds : list string) (bot : Bot).

Lemma effects_rdblog_log (row : record) :
  has_kind_in kinds row →
  effects (cog_row kinds bot) (logs_kind_in kinds) (rdblog_log bot row).
Proof.
  intros Hrow. unfold rdblog_log.
  apply effects_bind; [by apply effects_issue |]. intros _.
  destruct (rdblog_accepts bot row); [| apply effects_raise].
  apply effects_commit. by left.
Qed.

Lemma effects_rdblog_log_message (message : Message) :
  effects (cog_row kinds bot) (logs_kind_in kinds) (rdblog_log_message bot message).
Proof.
  unfold rdblog_log_message.
  apply effects_bind; [by apply effects_issue |]. intros _.
  destruct (log_message_row bot message) as [row|] eqn:Hrow; [| apply effects_raise].
  apply effects_commit. right. by exists message.
Qed.

Lemma effects_resolve (server : Server) (category default : string) :
  effects (cog_row kinds bot) (logs_kind_in kinds)
    (rethinkdb_get_event_message bot server category default).
Proof.
  unfold rethinkdb_get_event_message.
  apply effects_bind; [by apply effects_issue | intros _; apply effects_pure].
Qed.

Lemma effects_send (channel : Channel) (text : string) :
  effects (cog_row kinds bot) (logs_kind_in kinds) (send_message bot channel text).
Proof.
  unfold send_message.
  apply effects_bind; [by apply effects_issue |]. intros _.
  destruct (send_accepts bot channel text); [apply effects_ret | apply effects_raise].
Qed.

Lemma effects_classify (data : pydict) :
  effects (cog_row kinds bot) (logs_kind_in kinds) (classify data).
Proof.
  unfold classify. destruct (negb _); [| apply effects_ret].
  apply effects_bind; [apply effects_pure |]. intros event.
  apply effects_bind; [| intros _; apply effects_ret].
  destruct (negb _); [by apply effects_issue | apply effects_ret].
Qed.

End CogEffects.

Ltac effects :=
  cbn zeta;
  repeat first
    [ apply effects_count_event | apply effects_classify
    | apply effects_rdblog_log_message | apply effects_resolve | apply effects_send
    | apply effects_rdblog_log; known_kind
    | apply effects_pure | apply effects_ret | apply effects_raise
    | apply effects_bind; [| intros ? ]
    | match goal with
      | |- effects _ _ (if ?b then _ else _) => destruct b
      | |- effects _ _ (match ?x with _ => _ end) => destruct x
      end ].

(** Whatever is delivered, the handler only adds rows and calls, and every
    row it hands to [rdblog.log] is of a known kind. *)
Lemma effects_handle (bot : Bot) (d : delivery) :
  effects (cog_row known_kinds bot) (logs_kind_in known_kinds) (handle bot d).
Proof.
  destruct d; cbn [handle];
    unfold on_socket_response, on_message, on_typing, on_message_delete,
      on_message_edit, on_member_ban, on_member_unban, on_member_join,
      on_member_remove;
    effects.
Qed.

(** The handlers other than [on_socket_response] log neither presence nor
    heartbeat rows. *)
Lemma effects_handle_other (bot : Bot) (d : delivery) :
  is_frame d = false →
  effects (cog_row handler_kinds bot) (logs_kind_in handler_kinds) (handle bot d).
Proof.
  destruct d; [discriminate | intros _ ..]; cbn [handle];
    unfold on_message, on_typing, on_message_delete,
      on_message_edit, on_member_ban, on_member_unban, on_member_join,
      on_member_remove;
    effects.
Qed.

Lemma run_effects (ds : list (Bot * delivery)) (w : World) :
  ∃ rows calls,
    table (run ds w) = table w ++ rows ∧
    journal (run ds w) = journal w ++ calls ∧
    Forall (logs_kind_in known_kinds) calls.
Proof.
  revert w. induction ds as [|[bot d] ds IH]; intros w; cbn [run].
  - exists [], []. by rewrite !app_nil_r.
  - destruct (effects_handle bot d w) as (rows & calls & Ht & Hj & _ & Hcalls).
    destruct (IH (handle bot d w).2) as (rows' & calls' & Ht' & Hj' & Hcalls').
    exists (rows ++ rows'), (calls ++ calls').
    rewrite Ht', Hj', Ht, Hj, !app_assoc. split_and!; [done.. |].
    by apply Forall_app.
Qed.

(** X9.  The log is append-only: over any run, whatever fails on the way, the
    rows the table held and the calls already issued stay where they are,
    and rows and calls are only added after them. *)
Theorem log_append_only (ds : list (Bot * delivery)) (w : World) :
  table w `prefix_of` table (run ds w) ∧
  journal w `prefix_of` journal (run ds w).
Proof.
  destruct (run_effects ds w) as (rows & calls & Ht & Hj & _).
  split; [by exists rows | by exists calls].
Qed.

(** X10.  Every row the cog hands to [rdblog.log], in any run, carries one of
    the nine kinds under ["t"]. *)
Theorem logged_rows_carry_known_kind (ds : list (Bot * delivery)) (w : World) (row : record) :
  CLog row ∈ journal (run ds w) →
  CLog row ∈ journal w ∨
  ∃ kind, dict_item "t" row = Some (PStr kind) ∧ kind ∈ known_kinds.
Proof.
  destruct (run_effects ds w) as (rows & calls & _ & -> & Hcalls).
  rewrite elem_of_app. intros [Hin | Hin]; [by left | right].
  rewrite Forall_forall in Hcalls. destruct (Hcalls _ Hin) as (kind & Hk & Hkind).
  exists kind. split; [| done]. unfold row_kind in Hk.
  destruct (dict_item "t" row) as [[]|]; congruence.
Qed.

Lemma logged_rows_carry_known_kind_witness :
  let row := lifecycle_row "GUILD_MEMBER_ADD" ada (member_server ada) in
  CLog row ∈ journal (run [(working_bot, MemberJoin ada)] empty_world) ∧
  (CLog row ∈ journal empty_world ∨
   ∃ kind, dict_item "t" row = Some (PStr kind) ∧ kind ∈ known_kinds).
Proof.
  intros row.
  assert (H : CLog row ∈ journal (run [(working_bot, MemberJoin ada)] empty_world))
    by apply list_elem_of_here.
  split; [exact H |].
  exact (logged_rows_carry_known_kind _ _ _ H).
Defined.

(** ** The counter and the log agree on presence updates *)

Lemma dict_item_get (key : string) (d : pydict) (v : pyval) :
  dict_item key d = Some v → dict_get key d = v.
Proof.
  induction d as [|[k v'] d IH]; cbn; [done |].
  destruct (String.eqb k key); [by intros [= ->] | done].
Qed.

Lemma row_kind_get (row : record) (kind : string) :
  row_kind row = Some kind → dict_get "t" row = PStr kind.
Proof.
  unfold row_kind. intros H. apply dict_item_get.
  destruct (dict_item "t" row) as [[]|]; congruence.
Qed.

Lemma occurrences_app (k : pyval) (rows rows' : list record) :
  occurrences k (rows ++ rows') = (occurrences k rows + occurrences k rows')%nat.
Proof. unfold occurrences. by rewrite filter_app, length_app. Qed.

Lemma occurrences_none (k : pyval) (rows : list record) :
  Forall (λ row, dict_get "t" row ≠ k) rows → occurrences k rows = 0%nat.
Proof.
  unfold occurrences. induction 1 as [|row rows Hrow _ IH]; [done |].
  by rewrite filter_cons_False.
Qed.

Lemma occurrences_one (k : pyval) (row : record) :
  dict_get "t" row = k → occurrences k [row] = 1%nat.
Proof.
  intros H. unfold occurrences. by rewrite filter_cons_True, filter_nil.
Qed.

Lemma handle_presence_balance (bot : Bot) (d : delivery) (w : World) :
  messages_are_not_presence bot →
  let w' := (handle bot d w).2 in
  (counter_get (events w') (HStr "PRESENCE_UPDATE")
   + occurrences (PStr "PRESENCE_UPDATE") (table w)
   = counter_get (events w) (HStr "PRESENCE_UPDATE")
     + occurrences (PStr "PRESENCE_UPDATE") (table w'))%nat.
Proof.
  intros Hmsg. destruct (is_frame d) eqn:Hd.
  - destruct d as [data| | | | | | | |]; try discriminate. cbn [handle].
    destruct (on_socket_response_outcome bot data w)
      as [e He | Ht | k Hp Hh | row k Hrow Hacc | row k Hrow Hacc]; cbn zeta.
    + done.
    + unfold counted, warned. cbn [snd events table].
      by rewrite counter_get_increment_ne.
    + unfold counted. cbn [snd events table].
      by rewrite counter_get_increment_ne.
    + rewrite (appended_accepted bot row w Hacc).
      unfold counted. cbn [snd events table].
      rewrite occurrences_app.
      destruct Hrow as [(_ & Hk & ->) | (_ & -> & ->)].
      * rewrite counter_get_increment, (occurrences_one _ row)
          by by apply row_kind_get.
        lia.
      * rewrite counter_get_increment_ne by done.
        rewrite (occurrences_none _ [_]); [lia |].
        constructor; [| constructor]. discriminate.
    + by rewrite (appended_rejected bot row w Hacc).
  - cbn zeta. rewrite keeps_events_handle by (intros data ->; discriminate).
    destruct (effects_handle_other bot d Hd w) as (rows & calls & -> & _ & Hrows & _).
    rewrite occurrences_app, (occurrences_none _ rows); [lia |].
    eapply Forall_impl; [exact Hrows |].
    intros row [(kind & Hk & Hkind) | (message & Hrow)].
    + rewrite (row_kind_get row kind Hk). intros [= ->].
      unfold handler_kinds in Hkind. rewrite !elem_of_cons, elem_of_nil in Hkind.
      naive_solver.
    + by eapply Hmsg.
Qed.

(** X11.  For presence updates the counter and the log move in step: over any
    run, the count of PRESENCE_UPDATE grows by exactly the number of
    PRESENCE_UPDATE rows committed to the table (provided [log_message]
    itself writes none). *)
Theorem presence_count_matches_log (ds : list (Bot * delivery)) (w : World) :
  Forall (λ bd, messages_are_not_presence bd.1) ds →
  (counter_get (events (run ds w)) (HStr "PRESENCE_UPDATE")
   + occurrences (PStr "PRESENCE_UPDATE") (table w)
   = counter_get (events w) (HStr "PRESENCE_UPDATE")
     + occurrences (PStr "PRESENCE_UPDATE") (table (run ds w)))%nat.
Proof.
  revert w. induction ds as [|[bot d] ds IH]; intros w Hds; [done |].
  apply Forall_cons in Hds as [Hbot Hds]. cbn [run].
  pose proof (handle_presence_balance bot d w Hbot) as Hstep. cbn zeta in Hstep.
  specialize (IH (handle bot d w).2 Hds). lia.
Qed.

Lemma presence_count_matches_log_witness :
  let ds := [(working_bot, SocketResponse presence_frame);
             (working_bot, MessageCreate (Build_Message ada None "hello"));
             (failing_store_bot, SocketResponse presence_frame);
             (working_bot, SocketResponse presence_frame)] in
  counter_get (events (run ds empty_world)) (HStr "PRESENCE_UPDATE") = 2%nat ∧
  occurrences (PStr "PRESENCE_UPDATE") (table (run ds empty_world)) = 2%nat.
Proof.
  intros ds.
  assert (Hds : Forall (λ bd, messages_are_not_presence bd.1) ds).
  { repeat constructor; intros message row; cbn; intros [=]; by subst. }
  pose proof (presence_count_matches_log ds empty_world Hds) as H.
  split; [reflexivity |].
  change (occurrences (PStr "PRESENCE_UPDATE") (table empty_world)) with 0%nat in H.
  change (counter_get (events empty_world) (HStr "PRESENCE_UPDATE")) with 0%nat in H.
  rewrite Nat.add_0_r, Nat.add_0_l in H. rewrite <- H. reflexivity.
Defined.

(** ** Templates, piece by piece *)

Lemma prepend_prepend (t1 t2 : string) (r : result string) :
  prepend t1 (prepend t2 r) = prepend (t1 +:+ t2) r.
Proof.
  destruct r as [s|e]; cbn; [| done]. f_equal.
  induction t1 as [|c t1 IH]; [done |]. by rewrite !append_cons, IH.
Qed.

Lemma snoc_eq (acc : string) (c : ascii) : snoc acc c = acc +:+ String c EmptyString.
Proof. reflexivity. Qed.

Section Pieces.

Context (bot : Bot) (kwargs : list (string * pyobj)).

(** Text read so far is text in front of the rendering of the rest. *)
Lemma build_string_accumulated (s : string) :
  ∀ acc,
    build_string bot kwargs (markup (InText acc) s)
    = prepend acc (build_string bot kwargs (markup (InText EmptyString) s)) ∧
    build_string bot kwargs (markup (AfterOpen acc) s)
    = prepend acc (build_string bot kwargs (markup (AfterOpen EmptyString) s)) ∧
    build_string bot kwargs (markup (AfterClose acc) s)
    = prepend acc (build_string bot kwargs (markup (AfterClose EmptyString) s)).
Proof.
  induction s as [|c s IH]; intros acc.
  - cbn. by rewrite !append_empty_r.
  - split_and!.
    + cbn [markup scan].
      destruct (Ascii.eqb c "{"); [| destruct (Ascii.eqb c "}")]; cbn [app].
      * apply IH.
      * apply IH.
      * rewrite (proj1 (IH (snoc acc c))), (proj1 (IH (snoc EmptyString c))).
        by rewrite prepend_prepend.
    + cbn [markup scan]. destruct (Ascii.eqb c "{"); cbn [app].
      * rewrite (proj1 (IH (snoc acc c))), (proj1 (IH (snoc EmptyString c))).
        by rewrite prepend_prepend.
      * destruct (scan_name EmptyString c) as [out next]. cbn.
        by destruct (build_string bot kwargs (out ++ _)).
    + cbn [markup scan]. destruct (Ascii.eqb c "}"); cbn [app].
      * rewrite (proj1 (IH (snoc acc c))), (proj1 (IH (snoc EmptyString c))).
        by rewrite prepend_prepend.
      * done.
Qed.

Lemma str_format_plain_prefix (pre rest : string) :
  plain_text pre = true →
  str_format bot (pre +:+ rest) kwargs = prepend pre (str_format bot rest kwargs).
Proof.
  intros Hpre. unfold str_format.
  rewrite (markup_plain_text _ pre rest Hpre), append_nil_l.
  apply (build_string_accumulated rest pre).
Qed.

Lemma scan_name_field_char (acc : string) (c : ascii) :
  field_char c = true → scan_name acc c = ([], Some (InName (snoc acc c))).
Proof.
  unfold field_char, scan_name. intros H.
  destruct (Ascii.eqb c "{"); [done |].
  destruct (Ascii.eqb c "}"); [done |].
  destruct (Ascii.eqb c "["); [done |].
  destruct (Ascii.eqb c ":"); [done |].
  by destruct (Ascii.eqb c "!").
Qed.

Lemma markup_field_chars (acc name rest : string) :
  field_chars name = true →
  markup (InName acc) (name +:+ String "}" rest)
  = Field (acc +:+ name) None EmptyString :: markup (InText EmptyString) rest.
Proof.
  revert acc. induction name as [|c name IH]; intros acc Hname.
  - by rewrite append_empty_r.
  - cbn in Hname. apply andb_prop in Hname as [Hc Hname].
    rewrite append_cons. cbn. rewrite (scan_name_field_char acc c Hc). cbn.
    by rewrite IH, snoc_append.
Qed.

Lemma str_format_field (name rest : string) :
  field_chars name = true →
  str_format bot (String "{" (name +:+ String "}" rest)) kwargs
  = match format_field bot kwargs name None EmptyString with
    | Ok text => prepend text (str_format bot rest kwargs)
    | Raise e => Raise e
    end.
Proof.
  intros Hname. unfold str_format.
  destruct name as [|c name].
  - rewrite append_nil_l. reflexivity.
  - cbn in Hname. apply andb_prop in Hname as [Hc Hname].
    rewrite append_cons.
    assert (Ascii.eqb c "{" = false) as Hopen.
    { unfold field_char in Hc. by destruct (Ascii.eqb c "{"). }
    cbn. rewrite Hopen, (scan_name_field_char _ c Hc). cbn [app].
    rewrite (markup_field_chars _ name rest Hname), snoc_append, append_nil_l.
    cbn. destruct (format_field bot kwargs (String c name) None EmptyString); [| done].
    by destruct (build_string bot kwargs (markup _ rest)).
Qed.

End Pieces.

(** ** Notifications *)

Lemma lifecycle_flows_run (bot : Bot) (member : Member) (server : Server)
    (f : flow) (w : World) :
  f ∈ lifecycle_flows bot member server →
  flow_handler f w = lifecycle bot member f w.
Proof. intros Hf. by rewrite (lifecycle_flows_spec bot member server f Hf). Qed.

(** X12.  A lifecycle handler issues at most three calls, in this order: the
    append of the event's row, the question to the resolver, and one
    [send_message].  A message is sent only if the store accepted the row
    and the resolver named a channel and a template that formats without
    error; it goes to that channel and its text is what [format] returned. *)
Theorem notification_follows_log_and_resolver (bot : Bot) (member : Member)
    (server : Server) (f : flow) (w : World) :
  f ∈ lifecycle_flows bot member server →
  let row := lifecycle_row (flow_kind f) member (flow_server f) in
  let ask := CResolve (flow_server f) (flow_category f) (flow_default f) in
  ∃ calls,
    journal (flow_handler f w).2 = journal w ++ calls ∧
    (calls = [CLog row] ∨
     calls = [CLog row; ask] ∨
     ∃ channel template text,
       calls = [CLog row; ask; CSend channel text] ∧
       rdblog_accepts bot row = true ∧
       get_event_message bot (flow_server f) (flow_category f) (flow_default f)
       = Ok (Some (channel, template)) ∧
       str_format bot template (lifecycle_fields member (flow_server f) channel)
       = Ok text).
Proof.
  intros Hf row ask.
  rewrite (lifecycle_flows_run bot member server f w Hf), lifecycle_run.
  fold row. cbn zeta. unfold resolved, sent, appended. fold ask.
  destruct (rdblog_accepts bot row) eqn:Hacc; cbn [snd journal];
    [| exists [CLog row]; auto].
  destruct (get_event_message bot _ _ _) as [[[channel template]|]|e] eqn:Hres;
    cbn [snd journal].
  - destruct (str_format bot template _) as [text|e] eqn:Hfmt; cbn [snd journal].
    + exists [CLog row; ask; CSend channel text].
      rewrite <- !app_assoc. split; [done |]. right. right.
      by exists channel, template, text.
    + exists [CLog row; ask]. rewrite <- !app_assoc. auto.
  - exists [CLog row; ask]. rewrite <- !app_assoc. auto.
  - exists [CLog row; ask]. rewrite <- !app_assoc. auto.
Qed.

Lemma notification_follows_log_and_resolver_witness :
  let bot := subscribed_bot "Hey {member.name}, this is {server.name}" in
  let row := lifecycle_row "GUILD_MEMBER_REMOVE" ada (member_server ada) in
  let ask := CResolve (member_server ada) "leaves" "Bye {member.name}!" in
  ∃ channel template text,
    journal (on_member_remove bot ada empty_world).2
    = [CLog row; ask; CSend channel text] ∧
    get_event_message bot (member_server ada) "leaves" "Bye {member.name}!"
    = Ok (Some (channel, template)) ∧
    str_format bot template (lifecycle_fields ada (member_server ada) channel)
    = Ok text.
Proof.
  intros bot row ask.
  destruct (notification_follows_log_and_resolver bot ada (member_server ada)
    {| flow_handler := on_member_remove bot ada;
       flow_kind := "GUILD_MEMBER_REMOVE";
       flow_server := member_server ada;
       flow_category := "leaves";
       flow_default := "Bye {member.name}!" |}
    empty_world)
    as (calls & Hcalls &
        [-> | [-> | (channel & template & text & -> & _ & Hres & Hfmt)]]).
  - apply list_elem_of_further, list_elem_of_here.
  - discriminate Hcalls.
  - discriminate Hcalls.
  - by exists channel, template, text.
Defined.

Lemma str_format_plain (bot : Bot) (kwargs : list (string * pyobj)) (template : string) :
  plain_text template = true → str_format bot template kwargs = Ok template.
Proof.
  intros Hplain.
  pose proof (str_format_plain_prefix bot kwargs template EmptyString Hplain) as H.
  rewrite append_empty_r in H. rewrite H. cbn. by rewrite append_empty_r.
Qed.

Lemma str_format_member_name (bot : Bot) (member : Member) (server : Server)
    (channel : Channel) (before after : string) :
  plain_text before = true →
  plain_text after = true →
  str_format bot (before +:+ "{member.name}" +:+ after)
    (lifecycle_fields member server channel)
  = Ok (before +:+ member_name member +:+ after).
Proof.
  intros Hb Ha. rewrite str_format_plain_prefix by done.
  change ("{member.name}" +:+ after)
    with (String "{" ("member.name" +:+ String "}" after)).
  rewrite str_format_field by reflexivity.
  change (format_field bot (lifecycle_fields member server channel)
            "member.name" None EmptyString) with (Ok (member_name member)).
  by rewrite (str_format_plain bot _ after Ha).
Qed.

(** X13.  Each hard-coded default template is plain text around one
    [{member.name}] field, and such a template always renders: the handler
    sends its text with the member's name in place of the field. *)
Theorem default_templates_render (bot : Bot) (member : Member) (server : Server)
    (f : flow) (w : World) (channel : Channel) :
  f ∈ lifecycle_flows bot member server →
  (∃ before after,
     flow_default f = before +:+ "{member.name}" +:+ after ∧
     plain_text before = true ∧ plain_text after = true) ∧
  (∀ before after,
     plain_text before = true →
     plain_text after = true →
     let template := before +:+ "{member.name}" +:+ after in
     let text := before +:+ member_name member +:+ after in
     let row := lifecycle_row (flow_kind f) member (flow_server f) in
     rdblog_accepts bot row = true →
     get_event_message bot (flow_server f) (flow_category f) (flow_default f)
     = Ok (Some (channel, template)) →
     flow_handler f w =
       (if send_accepts bot channel text then Ok () else Raise SendError,
        sent channel text
          (resolved (flow_server f) (flow_category f) (flow_default f)
             (appended bot row w)))).
Proof.
  intros Hf. split.
  - unfold lifecycle_flows in Hf. rewrite !elem_of_cons, elem_of_nil in Hf.
    destruct Hf as [-> | [-> | [-> | [-> | []]]]]; cbn [flow_default].
    + by exists "Welcome ", "!".
    + by exists "Bye ", "!".
    + by exists "`", "` got **bent**".
    + by exists "`", "` got **unbent**".
  - intros before after Hb Ha template text row Hacc Hres.
    rewrite (lifecycle_flows_run bot member server f w Hf), lifecycle_run.
    fold row. cbn zeta. rewrite Hacc, Hres.
    unfold template. by rewrite str_format_member_name.
Qed.

Lemma default_templates_render_witness :
  let bot := subscribed_bot "`{member.name}` got **bent**" in
  let row := lifecycle_row "GUILD_BAN_ADD" ada (member_server ada) in
  on_member_ban bot ada empty_world
  = (Ok (),
     mkWorld ∅ [row]
       [CLog row;
        CResolve (member_server ada) "bans" "`{member.name}` got **bent**";
        CSend lobby "`Ada` got **bent**"]).
Proof.
  intros bot row.
  refine (proj2 (default_templates_render bot ada (member_server ada)
    {| flow_handler := on_member_ban bot ada;
       flow_kind := "GUILD_BAN_ADD";
       flow_server := member_server ada;
       flow_category := "bans";
       flow_default := "`{member.name}` got **bent**" |}
    empty_world lobby _) "`" "` got **bent**" _ _ _ _).
  - apply list_elem_of_further, list_elem_of_further, list_elem_of_here.
  - reflexivity.
  - reflexivity.
  - reflexivity.
  - reflexivity.
Defined.

(** X15.  A configured template without braces is sent word for word. *)
Theorem plain_template_sent_verbatim (bot : Bot) (member : Member) (server : Server)
    (f : flow) (w : World) (channel : Channel) (template : string) :
  f ∈ lifecycle_flows bot member server →
  plain_text template = true →
  let row := lifecycle_row (flow_kind f) member (flow_server f) in
  rdblog_accepts bot row = true →
  get_event_message bot (flow_server f) (flow_category f) (flow_default f)
  = Ok (Some (channel, template)) →
  flow_handler f w =
    (if send_accepts bot channel template then Ok () else Raise SendError,
     sent channel template
       (resolved (flow_server f) (flow_category f) (flow_default f)
          (appended bot row w))).
Proof.
  intros Hf Hplain row Hacc Hres.
  rewrite (lifecycle_flows_run bot member server f w Hf), lifecycle_run.
  fold row. cbn zeta. rewrite Hacc, Hres.
  by rewrite (str_format_plain bot _ template Hplain).
Qed.

Lemma plain_template_sent_verbatim_witness :
  let bot := subscribed_bot "Someone left. Farewell!" in
  let row := lifecycle_row "GUILD_MEMBER_REMOVE" ada (member_server ada) in
  on_member_remove bot ada empty_world
  = (Ok (),
     mkWorld ∅ [row]
       [CLog row; CResolve (member_server ada) "leaves" "Bye {member.name}!";
        CSend lobby "Someone left. Farewell!"]).
Proof.
  intros bot row.
  refine (plain_template_sent_verbatim bot ada (member_server ada)
    {| flow_handler := on_member_remove bot ada;
       flow_kind := "GUILD_MEMBER_REMOVE";
       flow_server := member_server ada;
       flow_category := "leaves";
       flow_default := "Bye {member.name}!" |}
    empty_world lobby "Someone left. Farewell!" _ _ _ _).
  - apply list_elem_of_further, list_elem_of_here.
  - reflexivity.
  - reflexivity.
  - reflexivity.
Defined.

(** ** The two frequency tables *)

Lemma tally_sum (key : pyval) (groups : list (pyval * nat)) :
  sum_list_with snd (tally key groups) = S (sum_list_with snd groups).
Proof.
  induction groups as [|[k n] groups IH]; cbn; [done |].
  destruct (decide (k = key)); cbn; [done |]. rewrite IH. lia.
Qed.

Lemma tally_length (key : pyval) (groups : list (pyval * nat)) :
  (length groups ≤ length (tally key groups) ≤ S (length groups))%nat.
Proof.
  induction groups as [|[k n] groups IH]; cbn; [lia |].
  destruct (decide (k = key)); cbn; lia.
Qed.

Lemma group_count_sum (rows : list record) :
  sum_list_with snd (group_count "t" rows) = length rows.
Proof.
  induction rows as [|row rows IH] using rev_ind; [done |].
  rewrite group_count_snoc, tally_sum, IH, length_app. cbn. lia.
Qed.

Lemma group_count_length (rows : list record) :
  (length (group_count "t" rows) ≤ length rows)%nat.
Proof.
  induction rows as [|row rows IH] using rev_ind; [done |].
  rewrite group_count_snoc, length_app. cbn.
  pose proof (tally_length (dict_get "t" row) (group_count "t" rows)). lia.
Qed.

(** X16.  The table of the [all] command accounts for every row of the log
    exactly once: its counts add up to the number of rows, so it has at
    most as many entries as the log has rows and no count exceeds that
    number. *)
Theorem all_rows_counts_every_row (rows : list record) :
  sum_list_with snd (all_rows rows) = length rows ∧
  (length (all_rows rows) ≤ length rows)%nat ∧
  ∀ k n, (k, n) ∈ all_rows rows → (n ≤ length rows)%nat.
Proof.
  assert (Hperm : all_rows rows ≡ₚ group_count "t" rows).
  { unfold all_rows. cbn zeta. by rewrite reverse_Permutation, sorted_by_count_perm. }
  assert (Hsum : sum_list_with snd (all_rows rows) = length rows).
  { rewrite Hperm. apply group_count_sum. }
  split_and!.
  - done.
  - rewrite Hperm. apply group_count_length.
  - intros k n Hin. rewrite <- Hsum.
    apply (sum_list_with_in (k, n) snd _ Hin).
Qed.

Lemma insert_by_count_desc_perm (x : hkey * nat) (l : list (hkey * nat)) :
  insert_by_count_desc x l ≡ₚ x :: l.
Proof.
  induction l as [|y l IH]; cbn; [done |].
  case_match; [done |]. by rewrite IH, Permutation_swap.
Qed.

Lemma sorted_by_count_desc_perm (l : list (hkey * nat)) :
  sorted_by_count_desc l ≡ₚ l.
Proof.
  induction l as [|x l IH]; cbn; [done |].
  by rewrite insert_by_count_desc_perm, IH.
Qed.

Lemma insert_by_count_desc_sorted (x : hkey * nat) (l : list (hkey * nat)) :
  StronglySorted (λ a b, b.2 ≤ a.2)%nat l →
  StronglySorted (λ a b, b.2 ≤ a.2)%nat (insert_by_count_desc x l).
Proof.
  induction l as [|y l IH]; intros Hs; cbn.
  - repeat constructor.
  - apply StronglySorted_cons in Hs as [Hy Hs].
    destruct (Nat.leb_spec y.2 x.2) as [Hle|Hlt].
    + apply StronglySorted_cons. split.
      * constructor; [done |].
        eapply Forall_impl; [exact Hy |]. cbn. intros z Hz. lia.
      * by apply StronglySorted_cons.
    + apply StronglySorted_cons. split; [| by apply IH].
      rewrite insert_by_count_desc_perm. constructor; [lia | done].
Qed.

Lemma sorted_by_count_desc_sorted (l : list (hkey * nat)) :
  StronglySorted (λ a b, b.2 ≤ a.2)%nat (sorted_by_count_desc l).
Proof.
  induction l as [|x l IH]; cbn; [constructor |].
  by apply insert_by_count_desc_sorted.
Qed.

(** X17.  The [events] command shows the ten most frequent kinds, or all of
    them when there are fewer: its rows are entries of the counter, in
    descending order of count, and no kind left out has a higher count
    than a kind shown.  Of the counts 5, 3, 3 and 1 the two most common are
    the 5 and the first 3. *)
Theorem events_rows_are_the_most_frequent (c : gmap hkey nat) (items : list (hkey * nat)) :
  items ≡ₚ map_to_list c →
  length (events_rows items) = (10 `min` size c)%nat ∧
  StronglySorted (λ a b, b.2 ≤ a.2)%nat (events_rows items) ∧
  (∀ k n, (k, n) ∈ events_rows items → c !! k = Some n) ∧
  (∃ rest,
     items ≡ₚ events_rows items ++ rest ∧
     ∀ shown left, shown ∈ events_rows items → left ∈ rest →
       (left.2 ≤ shown.2)%nat) ∧
  most_common 2 [(HStr "A", 5); (HStr "B", 3); (HStr "C", 3); (HStr "D", 1)]
  = [(HStr "A", 5); (HStr "B", 3)].
Proof.
  intros Hitems. unfold events_rows, most_common.
  pose proof (sorted_by_count_desc_perm items) as Hperm.
  pose proof (sorted_by_count_desc_sorted items) as Hsorted.
  rewrite <- (take_drop 10 (sorted_by_count_desc items)) in Hperm, Hsorted.
  split_and!.
  - rewrite length_take, (Permutation_length (sorted_by_count_desc_perm items)),
      Hitems, length_map_to_list. done.
  - by apply StronglySorted_app_1_l in Hsorted.
  - intros k n Hin. apply elem_of_map_to_list. rewrite <- Hitems, <- Hperm.
    apply elem_of_app. by left.
  - exists (drop 10 (sorted_by_count_desc items)). split; [done |].
    intros shown left Hshown Hleft.
    by apply (StronglySorted_app_1_elem_of _ _ _ _ _ Hsorted Hshown Hleft).
  - reflexivity.
Qed.

Lemma events_rows_are_the_most_frequent_witness :
  let c : gmap hkey nat :=
    {[ HStr "PRESENCE_UPDATE" := 7; HStr "READY" := 1; HNone := 2 ]} in
  length (events_rows (map_to_list c)) = 3%nat ∧
  StronglySorted (λ a b, b.2 ≤ a.2)%nat (events_rows (map_to_list c)).
Proof.
  intros c.
  destruct (events_rows_are_the_most_frequent c (map_to_list c) (reflexivity _))
    as (Hlen & Hsorted & _).
  split; [| exact Hsorted].
  rewrite Hlen. reflexivity.
Defined.

(** ** What is committed when a handler fails *)

Lemma rdblog_log_message_run (bot : Bot) (message : Message) (w : World) :
  rdblog_log_message bot message w =
    match log_message_row bot message with
    | Some row =>
        (Ok (), mkWorld (events w) (table w ++ [row])
                  (journal w ++ [CLogMessage message]))
    | None =>
        (Raise StoreError,
         mkWorld (events w) (table w) (journal w ++ [CLogMessage message]))
    end.
Proof.
  unfold rdblog_log_message. run_M. by destruct (log_message_row bot message).
Qed.

(** X18.  The message handlers ([on_message], [on_typing], [on_message_delete],
    [on_message_edit]) are all or nothing.  Each issues one call to the
    store; it completes exactly when one row was committed, and when it
    raises (the store's error, or [AttributeError] for a deleted or edited
    private message, raised before any call) the table is as it was.  None
    of them touches the counter. *)
Theorem message_handlers_all_or_nothing (bot : Bot) (d : delivery) (w : World) :
  is_message d = true →
  match handle bot d w with
  | (Ok _, w') =>
      events w' = events w ∧
      ∃ c row, journal w' = journal w ++ [c] ∧ table w' = table w ++ [row]
  | (Raise e, w') =>
      events w' = events w ∧ table w' = table w ∧
      ((e = StoreError ∧ ∃ c, journal w' = journal w ++ [c]) ∨
       (e = AttributeError ∧ w' = w))
  end.
Proof.
  destruct d as [|message|channel user|message|old message| | | |];
    try discriminate; intros _; cbn [handle].
  - unfold on_message. rewrite rdblog_log_message_run.
    destruct (log_message_row bot message) as [row|]; cbn; eauto 10.
  - unfold on_typing. cbn zeta. rewrite rdblog_log_run.
    destruct (rdblog_accepts bot _) eqn:Hacc.
    + rewrite (appended_accepted _ _ _ Hacc). cbn. eauto 10.
    + rewrite (appended_rejected _ _ _ Hacc). cbn. eauto 10.
  - unfold on_message_delete, message_server_id.
    destruct (message_server message) as [server|]; run_M; [| by auto].
    rewrite rdblog_log_run. destruct (rdblog_accepts bot _) eqn:Hacc.
    + rewrite (appended_accepted _ _ _ Hacc). cbn. eauto 10.
    + rewrite (appended_rejected _ _ _ Hacc). cbn. eauto 10.
  - unfold on_message_edit, message_server_id.
    destruct (message_server message) as [server|]; run_M; [| by auto].
    rewrite rdblog_log_run. destruct (rdblog_accepts bot _) eqn:Hacc.
    + rewrite (appended_accepted _ _ _ Hacc). cbn. eauto 10.
    + rewrite (appended_rejected _ _ _ Hacc). cbn. eauto 10.
Qed.

Lemma message_handlers_all_or_nothing_witness :
  let w' := (handle working_bot (Typing lobby ada) counted_world).2 in
  handle working_bot (Typing lobby ada) counted_world = (Ok (), w') ∧
  events w' = events counted_world ∧
  ∃ c row, journal w' = journal counted_world ++ [c] ∧
           table w' = table counted_world ++ [row].
Proof.
  intros w'. split; [reflexivity |].
  exact (message_handlers_all_or_nothing working_bot (Typing lobby ada)
           counted_world eq_refl).
Defined.

(** X19.  A lifecycle event stays logged whatever becomes of its notification:
    once the store has accepted the row, the table holds exactly that one
    row more when the handler ends, whether it completes, the resolver
    fails, the template does not format or the message cannot be sent.  If
    the store rejects the row, the handler raises the store's error at
    once: the resolver is not asked and nothing is sent. *)
Theorem lifecycle_row_stays_committed (bot : Bot) (member : Member) (server : Server)
    (f : flow) (w : World) :
  f ∈ lifecycle_flows bot member server →
  let row := lifecycle_row (flow_kind f) member (flow_server f) in
  (rdblog_accepts bot row = true →
   table (flow_handler f w).2 = table w ++ [row] ∧
   events (flow_handler f w).2 = events w) ∧
  (rdblog_accepts bot row = false →
   flow_handler f w
   = (Raise StoreError, mkWorld (events w) (table w) (journal w ++ [CLog row]))).
Proof.
  intros Hf row.
  rewrite (lifecycle_flows_run bot member server f w Hf), lifecycle_run.
  fold row. cbn zeta. split; intros Hacc; rewrite Hacc.
  - unfold resolved, sent. rewrite (appended_accepted bot row w Hacc).
    destruct (get_event_message bot _ _ _) as [[[channel template]|]|e];
      [destruct (str_format bot template _) as [text|e] | ..]; done.
  - by rewrite (appended_rejected bot row w Hacc).
Qed.

Lemma lifecycle_row_stays_committed_witness :
  let bot := subscribed_bot "Welcome {user}!" in
  let row := lifecycle_row "GUILD_MEMBER_ADD" ada (member_server ada) in
  on_member_join bot ada empty_world
  = (Raise (KeyError "user"),
     mkWorld ∅ [row]
       [CLog row; CResolve (member_server ada) "joins" "Welcome {member.name}!"]) ∧
  table (on_member_join bot ada empty_world).2 = table empty_world ++ [row].
Proof.
  intros bot row. split; [reflexivity |].
  refine (proj1 (proj1 (lifecycle_row_stays_committed bot ada (member_server ada)
    {| flow_handler := on_member_join bot ada;
       flow_kind := "GUILD_MEMBER_ADD";
       flow_server := member_server ada;
       flow_category := "joins";
       flow_default := "Welcome {member.name}!" |}
    empty_world _) _)).
  - apply list_elem_of_here.
  - reflexivity.
Defined.

(** ** Instances *)

Lemma heartbeat_row_iff_heatbeat_tag_witness :
  journal (on_socket_response working_bot
             [("t", PStr "HEATBEAT_ACK"); ("op", PInt 0)] empty_world).2
  = journal empty_world ++ [CLog [("t", PStr "HEARTBEAT_ACK"); ("seq", PInt 17)]].
Proof.
  apply (proj2 (heartbeat_row_iff_heatbeat_tag working_bot
                  [("t", PStr "HEATBEAT_ACK"); ("op", PInt 0)] empty_world)).
  reflexivity.
Defined.

Lemma all_rows_counts_every_row_witness :
  let rows := [row_of "A" "1"; row_of "B" "1"; row_of "A" "2"] in
  (PStr "A", 2) ∈ all_rows rows ∧ (2 ≤ length rows)%nat.
Proof.
  intros rows.
  assert (Hin : (PStr "A", 2) ∈ all_rows rows) by apply list_elem_of_here.
  split; [exact Hin |].
  exact (proj2 (proj2 (all_rows_counts_every_row rows)) _ _ Hin).
Defined.
